(** * Symbol-visibility headers of zig-jxl-jpegli

    The repository consists of three pre-generated export headers,
    [jxl_export.h], [jxl_cms_export.h] and [jxl/jxl_threads_export.h].
    Each one is a short program for the C preprocessor: a nest of
    [#ifdef]/[#ifndef] conditionals over the macro table of the including
    translation unit, whose leaves are [#define] directives.

    The embedding is shallow.  The macro table is a finite map from macro
    names to replacement lists; a directive is a function on the
    preprocessor state; the three headers are transcribed line by line
    with a handful of combinators.  Only object-like macros occur in the
    headers, so only these are modelled. *)

From stdpp Require Import gmap strings list fin_maps.

Local Open Scope string_scope.

(** ** Preprocessing tokens and the preprocessor state *)

(** A replacement list is a list of preprocessing tokens.  Identifiers are
    the only tokens subject to macro replacement. *)
Inductive pp_token : Type :=
  | Ident (name : string)
  | Punct (spelling : string)
  | StrLit (contents : string)
  | PPNumber (spelling : string).

#[global] Instance pp_token_eq_dec : EqDecision pp_token.
Proof. solve_decision. Defined.

(** The only diagnostic these headers can provoke: a [#define] of a name
    that is already bound to a different replacement list. *)
Inductive diagnostic : Type :=
  | MacroRedefined (name : string).

#[global] Instance diagnostic_eq_dec : EqDecision diagnostic.
Proof. solve_decision. Defined.

Record pp_state : Type := PPState {
  macros : gmap string (list pp_token);
  diagnostics : list diagnostic
}.

Definition directive : Type := pp_state → pp_state.

(** [defined(NAME)] *)
Definition defined (s : pp_state) (name : string) : bool :=
  bool_decide (is_Some (macros s !! name)).

(** [#define NAME body].  Binding a fresh name, or re-binding a name to the
    replacement list it already has, is silent.  Binding it to a different
    list is diagnosed, and the new definition is the one in force
    afterwards (the behaviour of GCC, Clang and MSVC). *)
Definition define (name : string) (body : list pp_token) : directive :=
  fun s =>
    match macros s !! name with
    | Some old =>
        if decide (old = body) then s
        else PPState (<[name := body]> (macros s))
                     (diagnostics s ++ [MacroRedefined name])%list
    | None => PPState (<[name := body]> (macros s)) (diagnostics s)
    end.

(** [#ifdef NAME  yes  #else  no  #endif].  The one [#elif defined(NAME)]
    of each header is the [#else] group holding an [#ifdef NAME]. *)
Definition ifdef_else (name : string) (yes no : directive) : directive :=
  fun s => if defined s name then yes s else no s.

(** [#ifndef NAME  body  #endif] *)
Definition ifndef (name : string) (body : directive) : directive :=
  fun s => if defined s name then s else body s.

(** One directive group after another. *)
Definition then_ (d1 d2 : directive) : directive := fun s => d2 (d1 s).

Declare Scope pp_scope.
Delimit Scope pp_scope with pp.
Bind Scope pp_scope with directive.
Notation "d1 ;; d2" := (then_ d1 d2)
  (at level 100, d2 at level 200, right associativity) : pp_scope.

(** ** Replacement lists spelled in the headers *)

(** [__declspec(dllexport)] *)
Definition declspec_dllexport : list pp_token :=
  [Ident "__declspec"; Punct "("; Ident "dllexport"; Punct ")"].

(** [__declspec(dllimport)] *)
Definition declspec_dllimport : list pp_token :=
  [Ident "__declspec"; Punct "("; Ident "dllimport"; Punct ")"].

(** [__attribute__((visibility("default")))] *)
Definition visibility_default : list pp_token :=
  [Ident "__attribute__"; Punct "("; Punct "("; Ident "visibility";
   Punct "("; StrLit "default"; Punct ")"; Punct ")"; Punct ")"].

(** [__attribute__((visibility("hidden")))] *)
Definition visibility_hidden : list pp_token :=
  [Ident "__attribute__"; Punct "("; Punct "("; Ident "visibility";
   Punct "("; StrLit "hidden"; Punct ")"; Punct ")"; Punct ")"].

(** [__attribute__ ((__deprecated__))] *)
Definition attribute_deprecated : list pp_token :=
  [Ident "__attribute__"; Punct "("; Punct "("; Ident "__deprecated__";
   Punct ")"; Punct ")"].

(** [__declspec(deprecated)] *)
Definition declspec_deprecated : list pp_token :=
  [Ident "__declspec"; Punct "("; Ident "deprecated"; Punct ")"].

(** ** The three headers *)

(** [jxl_export.h] *)
Definition jxl_export_h : directive :=
  ifndef "JXL_EXPORT_H" (
    define "JXL_EXPORT_H" [] ;;
    ifdef_else "JXL_STATIC_DEFINE"
      (define "JXL_EXPORT" [] ;;
       define "JXL_NO_EXPORT" [])
      (ifdef_else "_WIN32"
         (ifdef_else "JXL_INTERNAL_LIBRARY_BUILD"
            (define "JXL_EXPORT" declspec_dllexport)
            (define "JXL_EXPORT" declspec_dllimport))
         (ifdef_else "JXL_INTERNAL_LIBRARY_BUILD"
            (define "JXL_EXPORT" visibility_default)
            (define "JXL_EXPORT" [])) ;;
       define "JXL_NO_EXPORT" visibility_hidden) ;;
    ifndef "JXL_DEPRECATED"
      (ifdef_else "__GNUC__"
         (define "JXL_DEPRECATED" attribute_deprecated)
         (ifdef_else "_MSC_VER"
            (define "JXL_DEPRECATED" declspec_deprecated)
            (define "JXL_DEPRECATED" []))) ;;
    ifndef "JXL_DEPRECATED_EXPORT"
      (define "JXL_DEPRECATED_EXPORT"
         [Ident "JXL_EXPORT"; Ident "JXL_DEPRECATED"]) ;;
    ifndef "JXL_DEPRECATED_NO_EXPORT"
      (define "JXL_DEPRECATED_NO_EXPORT"
         [Ident "JXL_NO_EXPORT"; Ident "JXL_DEPRECATED"])
  )%pp.

(** [jxl_cms_export.h] *)
Definition jxl_cms_export_h : directive :=
  ifndef "JXL_CMS_EXPORT_H" (
    define "JXL_CMS_EXPORT_H" [] ;;
    ifdef_else "JXL_STATIC_DEFINE"
      (define "JXL_CMS_EXPORT" [] ;;
       define "JXL_CMS_NO_EXPORT" [])
      (ifdef_else "_WIN32"
         (ifdef_else "JXL_CMS_INTERNAL_LIBRARY_BUILD"
            (define "JXL_CMS_EXPORT" declspec_dllexport)
            (define "JXL_CMS_EXPORT" declspec_dllimport))
         (ifdef_else "JXL_CMS_INTERNAL_LIBRARY_BUILD"
            (define "JXL_CMS_EXPORT" visibility_default)
            (define "JXL_CMS_EXPORT" [])) ;;
       define "JXL_CMS_NO_EXPORT" visibility_hidden) ;;
    ifndef "JXL_CMS_DEPRECATED"
      (ifdef_else "__GNUC__"
         (define "JXL_CMS_DEPRECATED" attribute_deprecated)
         (ifdef_else "_MSC_VER"
            (define "JXL_CMS_DEPRECATED" declspec_deprecated)
            (define "JXL_CMS_DEPRECATED" []))) ;;
    ifndef "JXL_CMS_DEPRECATED_EXPORT"
      (define "JXL_CMS_DEPRECATED_EXPORT"
         [Ident "JXL_CMS_EXPORT"; Ident "JXL_CMS_DEPRECATED"]) ;;
    ifndef "JXL_CMS_DEPRECATED_NO_EXPORT"
      (define "JXL_CMS_DEPRECATED_NO_EXPORT"
         [Ident "JXL_CMS_NO_EXPORT"; Ident "JXL_CMS_DEPRECATED"])
  )%pp.

(** [jxl/jxl_threads_export.h] *)
Definition jxl_threads_export_h : directive :=
  ifndef "JXL_THREADS_EXPORT_H" (
    define "JXL_THREADS_EXPORT_H" [] ;;
    ifdef_else "JXL_STATIC_DEFINE"
      (define "JXL_THREADS_EXPORT" [] ;;
       define "JXL_THREADS_NO_EXPORT" [])
      (ifdef_else "_WIN32"
         (ifdef_else "JXL_THREADS_INTERNAL_LIBRARY_BUILD"
            (define "JXL_THREADS_EXPORT" declspec_dllexport)
            (define "JXL_THREADS_EXPORT" declspec_dllimport))
         (ifdef_else "JXL_THREADS_INTERNAL_LIBRARY_BUILD"
            (define "JXL_THREADS_EXPORT" visibility_default)
            (define "JXL_THREADS_EXPORT" [])) ;;
       define "JXL_THREADS_NO_EXPORT" visibility_hidden) ;;
    ifndef "JXL_THREADS_DEPRECATED"
      (ifdef_else "__GNUC__"
         (define "JXL_THREADS_DEPRECATED" attribute_deprecated)
         (ifdef_else "_MSC_VER"
            (define "JXL_THREADS_DEPRECATED" declspec_deprecated)
            (define "JXL_THREADS_DEPRECATED" []))) ;;
    ifndef "JXL_THREADS_DEPRECATED_EXPORT"
      (define "JXL_THREADS_DEPRECATED_EXPORT"
         [Ident "JXL_THREADS_EXPORT"; Ident "JXL_THREADS_DEPRECATED"]) ;;
    ifndef "JXL_THREADS_DEPRECATED_NO_EXPORT"
      (define "JXL_THREADS_DEPRECATED_NO_EXPORT"
         [Ident "JXL_THREADS_NO_EXPORT"; Ident "JXL_THREADS_DEPRECATED"])
  )%pp.

(** ** Macro replacement *)

(** Rescanning of object-like macros.  [painted] holds the names of the
    macros currently being replaced: such a name met during the rescan of
    a replacement list is left alone (C11 6.10.3.4p2).  Every replacement
    paints one more bound name, so the nesting depth is bounded by the
    number of bound names; [fuel] counts the nesting that is still
    allowed, and [None] is returned when it is used up. *)
Fixpoint expand (fuel : nat) (env : gmap string (list pp_token))
    (painted : gset string) (ts : list pp_token) : option (list pp_token) :=
  match fuel with
  | O => None
  | S fuel' =>
      (fix scan (ts : list pp_token) : option (list pp_token) :=
         match ts with
         | [] => Some []
         | t :: rest =>
             let head :=
               match t with
               | Ident x =>
                   if decide (x ∈ painted) then Some [t]
                   else match env !! x with
                        | Some body => expand fuel' env ({[x]} ∪ painted) body
                        | None => Some [t]
                        end
               | _ => Some [t]
               end in
             match head, scan rest with
             | Some h, Some r => Some (h ++ r)%list
             | _, _ => None
             end
         end) ts
  end.

(** The complete macro replacement of a token sequence in a translation
    unit whose macro table is that of [s]. *)
Definition expansion (s : pp_state) (ts : list pp_token)
    : option (list pp_token) :=
  expand (S (size (macros s))) (macros s) ∅ ts.

(** ** Modules, tokens and ambient configurations *)

Inductive module : Type := Core | Cms | Threads.

Inductive token_kind : Type :=
  | Export | NoExport | Deprecated | DeprecatedExport | DeprecatedNoExport.

#[global] Instance module_eq_dec : EqDecision module.
Proof. solve_decision. Defined.

#[global] Instance token_kind_eq_dec : EqDecision token_kind.
Proof. solve_decision. Defined.

Definition header (m : module) : directive :=
  match m with
  | Core => jxl_export_h
  | Cms => jxl_cms_export_h
  | Threads => jxl_threads_export_h
  end.

(** The include guard of each header. *)
Definition guard_name (m : module) : string :=
  match m with
  | Core => "JXL_EXPORT_H"
  | Cms => "JXL_CMS_EXPORT_H"
  | Threads => "JXL_THREADS_EXPORT_H"
  end.

(** The flag a module's own sources are compiled with. *)
Definition internal_build_name (m : module) : string :=
  match m with
  | Core => "JXL_INTERNAL_LIBRARY_BUILD"
  | Cms => "JXL_CMS_INTERNAL_LIBRARY_BUILD"
  | Threads => "JXL_THREADS_INTERNAL_LIBRARY_BUILD"
  end.

Definition token_name (m : module) (k : token_kind) : string :=
  match m, k with
  | Core, Export => "JXL_EXPORT"
  | Core, NoExport => "JXL_NO_EXPORT"
  | Core, Deprecated => "JXL_DEPRECATED"
  | Core, DeprecatedExport => "JXL_DEPRECATED_EXPORT"
  | Core, DeprecatedNoExport => "JXL_DEPRECATED_NO_EXPORT"
  | Cms, Export => "JXL_CMS_EXPORT"
  | Cms, NoExport => "JXL_CMS_NO_EXPORT"
  | Cms, Deprecated => "JXL_CMS_DEPRECATED"
  | Cms, DeprecatedExport => "JXL_CMS_DEPRECATED_EXPORT"
  | Cms, DeprecatedNoExport => "JXL_CMS_DEPRECATED_NO_EXPORT"
  | Threads, Export => "JXL_THREADS_EXPORT"
  | Threads, NoExport => "JXL_THREADS_NO_EXPORT"
  | Threads, Deprecated => "JXL_THREADS_DEPRECATED"
  | Threads, DeprecatedExport => "JXL_THREADS_DEPRECATED_EXPORT"
  | Threads, DeprecatedNoExport => "JXL_THREADS_DEPRECATED_NO_EXPORT"
  end.

(** The ambient configuration: which of the flags the headers test are
    defined when the first line of the translation unit is read. *)
Record config : Type := Config {
  static_define : bool;                       (* JXL_STATIC_DEFINE *)
  win32 : bool;                               (* _WIN32 *)
  gnuc : bool;                                (* __GNUC__ *)
  msc_ver : bool;                             (* _MSC_VER *)
  jxl_internal_library_build : bool;          (* JXL_INTERNAL_LIBRARY_BUILD *)
  jxl_cms_internal_library_build : bool;      (* JXL_CMS_INTERNAL_LIBRARY_BUILD *)
  jxl_threads_internal_library_build : bool   (* JXL_THREADS_INTERNAL_LIBRARY_BUILD *)
}.

Definition internal_build (cfg : config) (m : module) : bool :=
  match m with
  | Core => jxl_internal_library_build cfg
  | Cms => jxl_cms_internal_library_build cfg
  | Threads => jxl_threads_internal_library_build cfg
  end.

(** A flag given on the command line or predefined by the toolchain is
    bound to [1]. *)
Definition predefine (flag : bool) (name : string)
    (env : gmap string (list pp_token)) : gmap string (list pp_token) :=
  if flag then <[name := [PPNumber "1"]]> env else env.

Definition initial_state (cfg : config) : pp_state :=
  PPState
    (predefine (static_define cfg) "JXL_STATIC_DEFINE"
    (predefine (win32 cfg) "_WIN32"
    (predefine (gnuc cfg) "__GNUC__"
    (predefine (msc_ver cfg) "_MSC_VER"
    (predefine (jxl_internal_library_build cfg) "JXL_INTERNAL_LIBRARY_BUILD"
    (predefine (jxl_cms_internal_library_build cfg)
       "JXL_CMS_INTERNAL_LIBRARY_BUILD"
    (predefine (jxl_threads_internal_library_build cfg)
       "JXL_THREADS_INTERNAL_LIBRARY_BUILD" ∅)))))))
    [].

(** The state of a translation unit that starts by including the header of
    module [m]. *)
Definition resolve (m : module) (cfg : config) : pp_state :=
  header m (initial_state cfg).

(** What a use of token [k] of module [m] is replaced by. *)
Definition token_expansion (m : module) (k : token_kind) (s : pp_state)
    : option (list pp_token) :=
  expansion s [Ident (token_name m k)].

(** The same configuration on another platform, or with another compiler. *)
Definition with_platform (w : bool) (cfg : config) : config :=
  Config (static_define cfg) w (gnuc cfg) (msc_ver cfg)
    (jxl_internal_library_build cfg) (jxl_cms_internal_library_build cfg)
    (jxl_threads_internal_library_build cfg).

Definition with_compiler (g v : bool) (cfg : config) : config :=
  Config (static_define cfg) (win32 cfg) g v
    (jxl_internal_library_build cfg) (jxl_cms_internal_library_build cfg)
    (jxl_threads_internal_library_build cfg).

(** Token [k] of module [m] is affected by the platform signal (resp. the
    compiler signals) at [cfg] when changing the signal, everything else
    being equal, changes what the token is replaced by. *)
Definition platform_affects (m : module) (k : token_kind) (cfg : config)
    : Prop :=
  ∃ w, token_expansion m k (resolve m (with_platform w cfg))
       ≠ token_expansion m k (resolve m cfg).

Definition compiler_affects (m : module) (k : token_kind) (cfg : config)
    : Prop :=
  ∃ g v, token_expansion m k (resolve m (with_compiler g v cfg))
         ≠ token_expansion m k (resolve m cfg).

(** The names bound by one inclusion of the header of [m]: those bound
    afterwards that were not bound before. *)
Definition newly_bound (m : module) (cfg : config) : gset string :=
  dom (macros (resolve m cfg)) ∖ dom (macros (initial_state cfg)).

(** The names that occur in a [#define] of the header of [m]. *)
Definition defined_names (m : module) : list string :=
  guard_name m ::
  (token_name m <$>
     [Export; NoExport; Deprecated; DeprecatedExport; DeprecatedNoExport]).

(** A translation unit that includes the headers of [ms], in that order
    (a module may be listed more than once). *)
Definition include_all (ms : list module) : directive :=
  fun s => foldl (fun s m => header m s) s ms.

(** ** The resolver of the specification *)

(** The specification describes one resolution procedure whose only
    parameter is the module-name prefix.  [visibility_policy_resolver]
    is that procedure; it is compared with the three headers below. *)
Definition visibility_policy_resolver (prefix : string) : directive :=
  ifndef (prefix ++ "_EXPORT_H") (
    define (prefix ++ "_EXPORT_H") [] ;;
    ifdef_else "JXL_STATIC_DEFINE"
      (define (prefix ++ "_EXPORT") [] ;;
       define (prefix ++ "_NO_EXPORT") [])
      (ifdef_else "_WIN32"
         (ifdef_else (prefix ++ "_INTERNAL_LIBRARY_BUILD")
            (define (prefix ++ "_EXPORT") declspec_dllexport)
            (define (prefix ++ "_EXPORT") declspec_dllimport))
         (ifdef_else (prefix ++ "_INTERNAL_LIBRARY_BUILD")
            (define (prefix ++ "_EXPORT") visibility_default)
            (define (prefix ++ "_EXPORT") [])) ;;
       define (prefix ++ "_NO_EXPORT") visibility_hidden) ;;
    ifndef (prefix ++ "_DEPRECATED")
      (ifdef_else "__GNUC__"
         (define (prefix ++ "_DEPRECATED") attribute_deprecated)
         (ifdef_else "_MSC_VER"
            (define (prefix ++ "_DEPRECATED") declspec_deprecated)
            (define (prefix ++ "_DEPRECATED") []))) ;;
    ifndef (prefix ++ "_DEPRECATED_EXPORT")
      (define (prefix ++ "_DEPRECATED_EXPORT")
         [Ident (prefix ++ "_EXPORT"); Ident (prefix ++ "_DEPRECATED")]) ;;
    ifndef (prefix ++ "_DEPRECATED_NO_EXPORT")
      (define (prefix ++ "_DEPRECATED_NO_EXPORT")
         [Ident (prefix ++ "_NO_EXPORT"); Ident (prefix ++ "_DEPRECATED")])
  )%pp.

Definition module_prefix (m : module) : string :=
  match m with
  | Core => "JXL"
  | Cms => "JXL_CMS"
  | Threads => "JXL_THREADS"
  end.

Definition token_suffix (k : token_kind) : string :=
  match k with
  | Export => "_EXPORT"
  | NoExport => "_NO_EXPORT"
  | Deprecated => "_DEPRECATED"
  | DeprecatedExport => "_DEPRECATED_EXPORT"
  | DeprecatedNoExport => "_DEPRECATED_NO_EXPORT"
  end.

(** ** Frame properties of directives *)

(** [keeps x d]: a binding of [x] that is in force before [d] is still in
    force, unchanged, after it. *)
Definition keeps (x : string) (d : directive) : Prop :=
  ∀ s body, macros s !! x = Some body → macros (d s) !! x = Some body.

(** [untouched x d]: [d] never binds [x]. *)
Definition untouched (x : string) (d : directive) : Prop :=
  ∀ s, macros (d s) !! x = macros s !! x.

(** [grows d]: [d] never removes a binding (the headers have no [#undef]). *)
Definition grows (d : directive) : Prop :=
  ∀ s x, defined s x = true → defined (d s) x = true.

(** [accumulates d]: [d] never retracts a diagnostic. *)
Definition accumulates (d : directive) : Prop :=
  ∀ s e, e ∈ diagnostics s → e ∈ diagnostics (d s).

(** The replacement lists the unguarded block of a header selects for its
    export and its hidden token, read off the flags of the including
    translation unit. *)
Definition export_choice (s : pp_state) (m : module) : list pp_token :=
  if defined s "JXL_STATIC_DEFINE" then []
  else if defined s "_WIN32"
       then if defined s (internal_build_name m)
            then declspec_dllexport else declspec_dllimport
       else if defined s (internal_build_name m)
            then visibility_default else [].

Definition no_export_choice (s : pp_state) : list pp_token :=
  if defined s "JXL_STATIC_DEFINE" then [] else visibility_hidden.

(** The replacement list a header selects for its deprecated token when
    the token is not bound yet. *)
Definition deprecated_choice (s : pp_state) : list pp_token :=
  if defined s "__GNUC__" then attribute_deprecated
  else if defined s "_MSC_VER" then declspec_deprecated
  else [].

(** The three guarded bindings that close a header, with the replacement
    list of the deprecated token already selected. *)
Definition guarded_defines (m : module) (deprecation : list pp_token)
    : directive :=
  (ifndef (token_name m Deprecated)
     (define (token_name m Deprecated) deprecation) ;;
   ifndef (token_name m DeprecatedExport)
     (define (token_name m DeprecatedExport)
        [Ident (token_name m Export); Ident (token_name m Deprecated)]) ;;
   ifndef (token_name m DeprecatedNoExport)
     (define (token_name m DeprecatedNoExport)
        [Ident (token_name m NoExport); Ident (token_name m Deprecated)]))%pp.

(** ** Further notions for the headers on arbitrary macro tables *)

(** What one [#define name new] adds to the diagnostics, given what [name]
    is bound to. *)
Definition redefinition (name : string) (old : option (list pp_token))
    (new : list pp_token) : list diagnostic :=
  match old with
  | Some o => if decide (o = new) then [] else [MacroRedefined name]
  | None => []
  end.

(** The diagnostics one inclusion of the header of [m] adds. *)
Definition new_diagnostics (m : module) (s : pp_state) : list diagnostic :=
  if defined s (guard_name m) then []
  else (redefinition (token_name m Export)
          (macros s !! token_name m Export) (export_choice s m)
        ++ redefinition (token_name m NoExport)
             (macros s !! token_name m NoExport) (no_export_choice s))%list.

(** The flags a header tests and never binds. *)
Definition flag_names (m : module) : list string :=
  ["JXL_STATIC_DEFINE"; "_WIN32"; "__GNUC__"; "_MSC_VER";
   internal_build_name m].

(** The names a header tests with [#ifdef], [#ifndef] or [defined]. *)
Definition tested_names (m : module) : list string :=
  ["JXL_STATIC_DEFINE"; "_WIN32"; "__GNUC__"; "_MSC_VER";
   internal_build_name m; guard_name m; token_name m Deprecated;
   token_name m DeprecatedExport; token_name m DeprecatedNoExport].

(** Two states with the same macro table and the same diagnostics, up to
    the order in which these were raised. *)
Definition same_outcome (s s' : pp_state) : Prop :=
  macros s = macros s' ∧ diagnostics s ≡ₚ diagnostics s'.

(** The identifiers that occur in the attributes the headers spell. *)
Definition attribute_identifiers : list string :=
  ["__declspec"; "dllexport"; "dllimport"; "__attribute__"; "visibility";
   "__deprecated__"; "deprecated"].

(** A token sequence no identifier of which is a macro of [env]. *)
Definition inert (env : gmap string (list pp_token)) (ts : list pp_token)
    : Prop :=
  Forall (fun t => match t with
                   | Ident x => env !! x = None
                   | _ => True
                   end) ts.

(** ** Basic facts about the directives *)

Lemma macros_define name body s :
  macros (define name body s) = <[name := body]> (macros s).
Proof.
  unfold define. destruct (macros s !! name) as [old|] eqn:Hold; [|done].
  case_decide; [|done]. subst. by rewrite insert_id.
Qed.

Lemma defined_define_eq name body s : defined (define name body s) name = true.
Proof.
  unfold defined. rewrite macros_define, lookup_insert_eq.
  by apply bool_decide_eq_true_2.
Qed.

Lemma defined_define_ne name body s x :
  name ≠ x → defined (define name body s) x = defined s x.
Proof.
  intros Hne. unfold defined. by rewrite macros_define, lookup_insert_ne.
Qed.

Lemma defined_false s x : defined s x = false → macros s !! x = None.
Proof.
  unfold defined. intros H%bool_decide_eq_false.
  by apply eq_None_not_Some.
Qed.

Lemma defined_true s x : defined s x = true → is_Some (macros s !! x).
Proof. unfold defined. by intros H%bool_decide_eq_true. Qed.

Lemma ifndef_true name body s : defined s name = true → ifndef name body s = s.
Proof. unfold ifndef. by intros ->. Qed.

Lemma ifndef_false name body s :
  defined s name = false → ifndef name body s = body s.
Proof. unfold ifndef. by intros ->. Qed.

Lemma lookup_define_ne name body s x :
  name ≠ x → macros (define name body s) !! x = macros s !! x.
Proof. intros Hne. by rewrite macros_define, lookup_insert_ne. Qed.

Lemma lookup_define_eq name body s :
  macros (define name body s) !! name = Some body.
Proof. by rewrite macros_define, lookup_insert_eq. Qed.

(** ** Frame properties, combinator by combinator *)

Section combinators.
Context (x : string).

Lemma untouched_define name body : name ≠ x → untouched x (define name body).
Proof. intros Hne s. by apply lookup_define_ne. Qed.

Lemma untouched_ifdef_else name yes no :
  untouched x yes → untouched x no → untouched x (ifdef_else name yes no).
Proof. intros Hy Hn s. unfold ifdef_else. by destruct (defined s name). Qed.

Lemma untouched_ifndef name body :
  untouched x body → untouched x (ifndef name body).
Proof. intros Hb s. unfold ifndef. by destruct (defined s name). Qed.

Lemma untouched_then d1 d2 :
  untouched x d1 → untouched x d2 → untouched x (d1 ;; d2)%pp.
Proof. intros H1 H2 s. unfold then_. by rewrite H2, H1. Qed.

Lemma untouched_keeps d : untouched x d → keeps x d.
Proof. intros Hd s body Hs. by rewrite Hd. Qed.

Lemma keeps_define name body : name ≠ x → keeps x (define name body).
Proof. intros Hne. by apply untouched_keeps, untouched_define. Qed.

(** The per-token guard: [#ifndef x ... #endif] never disturbs a binding
    of [x], whatever its body does. *)
Lemma keeps_ifndef_same body : keeps x (ifndef x body).
Proof.
  intros s old Hs. rewrite ifndef_true; [done|].
  unfold defined. apply bool_decide_eq_true_2. by rewrite Hs.
Qed.

Lemma keeps_ifndef name body : keeps x body → keeps x (ifndef name body).
Proof. intros Hb s old Hs. unfold ifndef. destruct (defined s name); auto. Qed.

Lemma keeps_ifdef_else name yes no :
  keeps x yes → keeps x no → keeps x (ifdef_else name yes no).
Proof.
  intros Hy Hn s old Hs. unfold ifdef_else. destruct (defined s name); auto.
Qed.

Lemma keeps_then d1 d2 : keeps x d1 → keeps x d2 → keeps x (d1 ;; d2)%pp.
Proof. intros H1 H2 s old Hs. unfold then_. auto. Qed.
End combinators.

Lemma grows_define name body : grows (define name body).
Proof.
  intros s x Hx. destruct (decide (name = x)) as [->|Hne].
  - apply defined_define_eq.
  - by rewrite defined_define_ne.
Qed.

Lemma grows_ifdef_else name yes no :
  grows yes → grows no → grows (ifdef_else name yes no).
Proof. intros Hy Hn s x Hx. unfold ifdef_else. destruct (defined s name); auto. Qed.

Lemma grows_ifndef name body : grows body → grows (ifndef name body).
Proof. intros Hb s x Hx. unfold ifndef. destruct (defined s name); auto. Qed.

Lemma grows_then d1 d2 : grows d1 → grows d2 → grows (d1 ;; d2)%pp.
Proof. intros H1 H2 s x Hx. unfold then_. auto. Qed.

Lemma accumulates_define name body : accumulates (define name body).
Proof.
  intros s e He. unfold define. destruct (macros s !! name); [|done].
  case_decide; [done|]. apply elem_of_app. by left.
Qed.

Lemma accumulates_ifdef_else name yes no :
  accumulates yes → accumulates no → accumulates (ifdef_else name yes no).
Proof. intros Hy Hn s e He. unfold ifdef_else. destruct (defined s name); auto. Qed.

Lemma accumulates_ifndef name body :
  accumulates body → accumulates (ifndef name body).
Proof. intros Hb s e He. unfold ifndef. destruct (defined s name); auto. Qed.

Lemma accumulates_then d1 d2 :
  accumulates d1 → accumulates d2 → accumulates (d1 ;; d2)%pp.
Proof. intros H1 H2 s e He. unfold then_. auto. Qed.

(** Re-binding a name to a different replacement list is diagnosed. *)
Lemma define_reports name old body s :
  macros s !! name = Some old → old ≠ body →
  MacroRedefined name ∈ diagnostics (define name body s).
Proof.
  intros Hold Hne. unfold define. rewrite Hold.
  case_decide; [done|]. apply elem_of_app. right. by apply list_elem_of_singleton.
Qed.

Create HintDb pp discriminated.

#[global] Hint Resolve untouched_define untouched_ifdef_else untouched_ifndef
  untouched_then keeps_define keeps_ifndef_same keeps_ifdef_else keeps_then
  grows_define grows_ifdef_else grows_ifndef grows_then
  accumulates_define accumulates_ifdef_else accumulates_ifndef
  accumulates_then : pp.
#[global] Hint Resolve keeps_ifndef | 5 : pp.
#[global] Hint Extern 1 (_ ≠ _) =>
  first [discriminate | assumption | apply not_eq_sym; assumption] : pp.
#[global] Hint Unfold jxl_export_h jxl_cms_export_h jxl_threads_export_h : pp.

Lemma grows_header m : grows (header m).
Proof. destruct m; unfold header; autounfold with pp; auto 20 with pp. Qed.

Lemma keeps_header m k :
  k ∈ [Deprecated; DeprecatedExport; DeprecatedNoExport] →
  keeps (token_name m k) (header m).
Proof.
  intros Hk. repeat (apply elem_of_cons in Hk as [->|Hk]);
    [ .. | by apply elem_of_nil in Hk ];
    destruct m; unfold header, token_name; autounfold with pp;
    auto 20 with pp.
Qed.

Lemma untouched_header m x : x ∉ defined_names m → untouched x (header m).
Proof.
  intros Hx. unfold defined_names in Hx.
  repeat (apply not_elem_of_cons in Hx as [? Hx]).
  destruct m; unfold header, guard_name, token_name in *;
    autounfold with pp; auto 20 with pp.
Qed.

(** ** The first inclusion, on an arbitrary macro table *)

(** When the include guard is not yet bound, a header is a straight line
    of bindings whose replacement lists are selected by the flags of the
    table it starts from: the guard, the export token, the hidden token,
    each with a plain [#define], then the three guarded bindings. *)
Lemma header_straight_line s m :
  defined s (guard_name m) = false →
  header m s =
  guarded_defines m (deprecated_choice s)
    (define (token_name m NoExport) (no_export_choice s)
      (define (token_name m Export) (export_choice s m)
        (define (guard_name m) [] s))).
Proof.
  intros Hguard.
  destruct m; unfold header; autounfold with pp;
    rewrite ifndef_false by exact Hguard;
    unfold guarded_defines, deprecated_choice, export_choice,
      no_export_choice, guard_name, token_name, internal_build_name;
    (match goal with
     | |- then_ (define ?g []) (then_ ?block (then_ (ifndef ?d ?dep) ?t)) s
          = then_ (ifndef ?d ?dep') ?t ?s' =>
         change (t (ifndef d dep (block (define g [] s)))
                 = t (ifndef d dep' s'));
         assert (block (define g [] s) = s') as ->;
         [|f_equal; unfold ifndef;
           destruct (defined s' d); [reflexivity|]]
     end);
    unfold ifdef_else, then_;
    rewrite !defined_define_ne by discriminate;
    repeat (match goal with
            | |- context [defined s ?x] => destruct (defined s x)
            end);
    reflexivity.
Qed.

Lemma keeps_guarded_defines m k deprecation :
  k ∈ [Export; NoExport] →
  keeps (token_name m k) (guarded_defines m deprecation).
Proof.
  intros Hk. apply elem_of_cons in Hk as [->|Hk%list_elem_of_singleton];
    subst; destruct m; unfold guarded_defines, token_name; auto 20 with pp.
Qed.

Lemma accumulates_guarded_defines m deprecation :
  accumulates (guarded_defines m deprecation).
Proof. unfold guarded_defines. auto 20 with pp. Qed.

Lemma header_first_inclusion s m :
  defined s (guard_name m) = false →
  ∃ tail : directive,
    keeps (token_name m Export) tail
    ∧ keeps (token_name m NoExport) tail
    ∧ accumulates tail
    ∧ header m s =
      tail (define (token_name m NoExport) (no_export_choice s)
             (define (token_name m Export) (export_choice s m)
               (define (guard_name m) [] s))).
Proof.
  intros Hguard. exists (guarded_defines m (deprecated_choice s)).
  split; [apply keeps_guarded_defines, list_elem_of_here|].
  split; [apply keeps_guarded_defines, list_elem_of_further,
            list_elem_of_here|].
  split; [apply accumulates_guarded_defines|].
  by apply header_straight_line.
Qed.

(** A token with a guard of its own that is not bound before the first
    inclusion is bound by it: the deprecated token to what the compiler
    signals select, the composite tokens to the two tokens they stand
    for. *)
Lemma header_guarded_binding s m k :
  defined s (guard_name m) = false →
  macros s !! token_name m k = None →
  macros (header m s) !! token_name m k =
  match k with
  | Export => Some (export_choice s m)
  | NoExport => Some (no_export_choice s)
  | Deprecated => Some (deprecated_choice s)
  | DeprecatedExport =>
      Some [Ident (token_name m Export); Ident (token_name m Deprecated)]
  | DeprecatedNoExport =>
      Some [Ident (token_name m NoExport); Ident (token_name m Deprecated)]
  end.
Proof.
  intros Hguard Hfree. rewrite header_straight_line by done.
  unfold guarded_defines, then_.
  set (s2 := define (token_name m NoExport) _ _).
  assert (∀ k', k' ∈ [Deprecated; DeprecatedExport; DeprecatedNoExport] →
                macros s2 !! token_name m k' = macros s !! token_name m k')
    as Hs2.
  { intros k' Hk'. unfold s2.
    rewrite !lookup_define_ne; [done|..];
      repeat (apply elem_of_cons in Hk' as [->|Hk']);
      try (by apply elem_of_nil in Hk'); destruct m; discriminate. }
  assert (∀ x b s', macros s' !! x = None →
                    macros (ifndef x (define x b) s') !! x = Some b) as Hbind.
  { intros x b s' Hx. rewrite ifndef_false; [apply lookup_define_eq|].
    unfold defined. rewrite Hx. by apply bool_decide_eq_false_2, is_Some_None. }
  assert (∀ x y b s', x ≠ y →
                      macros (ifndef x (define x b) s') !! y = macros s' !! y)
    as Hskip.
  { intros x y b s' Hne. by apply untouched_ifndef, untouched_define. }
  destruct k.
  - rewrite !Hskip by (destruct m; discriminate). unfold s2.
    rewrite lookup_define_ne by (destruct m; discriminate).
    apply lookup_define_eq.
  - rewrite !Hskip by (destruct m; discriminate). apply lookup_define_eq.
  - rewrite !Hskip by (destruct m; discriminate).
    apply Hbind. rewrite Hs2; [done|]. apply list_elem_of_here.
  - rewrite Hskip by (destruct m; discriminate).
    apply Hbind. rewrite Hskip by (destruct m; discriminate).
    rewrite Hs2; [done|]. apply list_elem_of_further, list_elem_of_here.
  - apply Hbind. rewrite !Hskip by (destruct m; discriminate).
    rewrite Hs2; [done|].
    apply list_elem_of_further, list_elem_of_further, list_elem_of_here.
Qed.

Lemma header_export_binding s m :
  defined s (guard_name m) = false →
  macros (header m s) !! token_name m Export = Some (export_choice s m).
Proof.
  intros Hguard.
  destruct (header_first_inclusion s m Hguard) as (tail & HE & _ & _ & ->).
  apply HE. rewrite lookup_define_ne by (destruct m; discriminate).
  apply lookup_define_eq.
Qed.

Lemma header_no_export_binding s m :
  defined s (guard_name m) = false →
  macros (header m s) !! token_name m NoExport = Some (no_export_choice s).
Proof.
  intros Hguard.
  destruct (header_first_inclusion s m Hguard) as (tail & _ & HN & _ & ->).
  apply HN, lookup_define_eq.
Qed.

(** A binding of the export or of the hidden token made before the first
    inclusion is overridden, and the override is diagnosed. *)
Lemma header_override_reported s m k old new :
  defined s (guard_name m) = false →
  k ∈ [Export; NoExport] →
  macros s !! token_name m k = Some old →
  macros (header m s) !! token_name m k = Some new →
  old ≠ new →
  MacroRedefined (token_name m k) ∈ diagnostics (header m s).
Proof.
  intros Hguard Hk Hold Hnew Hne.
  apply elem_of_cons in Hk as [->|Hk];
    [|apply list_elem_of_singleton in Hk as ->].
  - rewrite header_export_binding in Hnew by done.
    injection Hnew as <-.
    destruct (header_first_inclusion s m Hguard) as (tail & _ & _ & Hacc & ->).
    apply Hacc, accumulates_define.
    apply (define_reports _ old); [|done].
    rewrite lookup_define_ne by (destruct m; discriminate). done.
  - rewrite header_no_export_binding in Hnew by done.
    injection Hnew as <-.
    destruct (header_first_inclusion s m Hguard) as (tail & _ & _ & Hacc & ->).
    apply Hacc. apply (define_reports _ old); [|done].
    rewrite !lookup_define_ne by (destruct m; discriminate). done.
Qed.

(** After its first inclusion the include guard of a header is bound, and
    a header whose guard is bound does nothing. *)
Lemma header_binds_guard s m : defined (header m s) (guard_name m) = true.
Proof.
  destruct (defined s (guard_name m)) eqn:Hguard.
  - destruct m; unfold header; autounfold with pp;
      by rewrite ifndef_true.
  - assert (∃ rest, grows rest ∧
              header m s = rest (define (guard_name m) [] s))
      as (rest & Hrest & ->).
    { destruct m; unfold header; autounfold with pp;
        rewrite ifndef_false by exact Hguard;
        (match goal with
         | |- context [then_ (define ?g []) ?t s] =>
             exists t; split; [auto 20 with pp|reflexivity]
         end). }
    apply Hrest, defined_define_eq.
Qed.

Lemma header_guarded s m : defined s (guard_name m) = true → header m s = s.
Proof.
  intros Hguard. destruct m; unfold header; autounfold with pp;
    by rewrite ifndef_true.
Qed.

Lemma header_idempotent s m : header m (header m s) = header m s.
Proof. apply header_guarded, header_binds_guard. Qed.

(** ** Macro replacement always terminates *)

Lemma expand_unfold fuel env painted t rest :
  expand (S fuel) env painted (t :: rest) =
  match
    match t with
    | Ident x =>
        if decide (x ∈ painted) then Some [t]
        else match env !! x with
             | Some body => expand fuel env ({[x]} ∪ painted) body
             | None => Some [t]
             end
    | _ => Some [t]
    end, expand (S fuel) env painted rest
  with
  | Some h, Some r => Some (h ++ r)%list
  | _, _ => None
  end.
Proof. reflexivity. Qed.

Lemma expand_nil fuel env painted : expand (S fuel) env painted [] = Some [].
Proof. reflexivity. Qed.

(** Fuel larger than the number of bound names that are not painted is
    never used up. *)
Lemma expand_enough_fuel fuel env painted ts :
  size (dom env ∖ painted) < fuel → is_Some (expand fuel env painted ts).
Proof.
  revert painted ts. induction fuel as [|fuel IH]; intros painted ts Hfuel.
  { lia. }
  induction ts as [|t rest IHrest]; [by rewrite expand_nil|].
  rewrite expand_unfold. destruct IHrest as [r ->].
  assert (∀ l : list pp_token, is_Some
            match Some l with Some h => Some (h ++ r)%list | None => None end)
    as Hsome by (intros l; eauto).
  destruct t as [x| | |]; try apply Hsome.
  case_decide as Hpaint; [apply Hsome|].
  destruct (env !! x) as [body|] eqn:Hx; [|apply Hsome].
  destruct (IH ({[x]} ∪ painted) body) as [h ->]; [|eauto].
  assert (x ∈ dom env) as Hdom by (apply elem_of_dom; eauto).
  assert (dom env ∖ ({[x]} ∪ painted) ⊂ dom env ∖ painted) as Hsub.
  { split.
    - intros y [Hy Hnot]%elem_of_difference. apply elem_of_difference.
      split; [done|]. intros Hp. apply Hnot, elem_of_union. by right.
    - intros Hsup.
      assert (x ∈ dom env ∖ ({[x]} ∪ painted)) as [_ Hnot]%elem_of_difference
        by (by apply Hsup, elem_of_difference).
      apply Hnot, elem_of_union. left. by apply elem_of_singleton. }
  apply subset_size in Hsub. lia.
Qed.

Lemma expansion_total s ts : is_Some (expansion s ts).
Proof.
  unfold expansion. apply expand_enough_fuel.
  rewrite difference_empty_L, size_dom. lia.
Qed.

(** Fuel beyond what a replacement needs does not change its result. *)
Lemma expand_more_fuel fuel env painted ts r :
  expand fuel env painted ts = Some r →
  expand (S fuel) env painted ts = Some r.
Proof.
  revert painted ts r. induction fuel as [|fuel IH]; intros painted ts r; [done|].
  revert r. induction ts as [|t rest IHrest]; intros r; [done|].
  rewrite (expand_unfold (S fuel)), expand_unfold.
  destruct (expand (S fuel) env painted rest) as [r'|] eqn:Hrest;
    [|by case_match].
  rewrite (IHrest r' eq_refl).
  destruct t as [x| | |]; try done.
  case_decide; [done|]. destruct (env !! x) as [body|]; [|done].
  destruct (expand fuel env ({[x]} ∪ painted) body) as [h|] eqn:Hbody; [|done].
  by rewrite (IH _ _ _ Hbody).
Qed.

(** Replacement works token by token: a sequence is replaced by the
    replacements of its parts, in their order. *)
Lemma expand_app fuel env painted ts1 ts2 :
  expand (S fuel) env painted (ts1 ++ ts2)%list =
  match expand (S fuel) env painted ts1, expand (S fuel) env painted ts2 with
  | Some r1, Some r2 => Some (r1 ++ r2)%list
  | _, _ => None
  end.
Proof.
  induction ts1 as [|t ts1 IH].
  - rewrite expand_nil. simpl app. by destruct (expand _ _ _ ts2).
  - change ((t :: ts1) ++ ts2)%list with (t :: (ts1 ++ ts2))%list.
    rewrite !expand_unfold, IH.
    destruct (expand (S fuel) env painted ts1) as [r1|],
             (expand (S fuel) env painted ts2) as [r2|];
      repeat case_match; simplify_eq; try done.
    by rewrite app_assoc.
Qed.

(** ** The decision table over the ambient configurations *)

(** There are finitely many ambient configurations, and the state reached
    from each is a closed term: the table is checked row by row. *)
Ltac each_config cfg :=
  destruct cfg as [[] [] [] [] [] [] []].

(** C1. In a shared build (JXL_STATIC_DEFINE absent) the export token of
    every module expands to __declspec(dllexport) on _WIN32 when the
    module's internal-build flag is defined and to __declspec(dllimport)
    otherwise; without _WIN32 it expands to the default-visibility
    attribute when the internal-build flag is defined and to nothing
    otherwise; the hidden token expands to the hidden-visibility attribute
    in all four cases. *)
Theorem shared_decision_table (cfg : config) (m : module) :
  static_define cfg = false →
  token_expansion m Export (resolve m cfg) =
    Some (if win32 cfg
          then if internal_build cfg m
               then declspec_dllexport else declspec_dllimport
          else if internal_build cfg m
               then visibility_default else [])
  ∧ token_expansion m NoExport (resolve m cfg) = Some visibility_hidden.
Proof.
  intros Hshared. each_config cfg; try discriminate Hshared;
    destruct m; split; vm_compute; reflexivity.
Qed.

Lemma shared_decision_table_witness :
  let cfg := Config false true false true true false false in
  token_expansion Core Export (resolve Core cfg) = Some declspec_dllexport
  ∧ token_expansion Core NoExport (resolve Core cfg) = Some visibility_hidden.
Proof.
  apply (shared_decision_table
           (Config false true false true true false false) Core).
  reflexivity.
Defined.

(** C2. When JXL_STATIC_DEFINE is defined, the export token and the hidden
    token of each of the three modules expand to nothing, whatever the
    platform flag and the internal-build flags are. *)
Theorem static_collapses (cfg : config) (m : module) :
  static_define cfg = true →
  token_expansion m Export (resolve m cfg) = Some []
  ∧ token_expansion m NoExport (resolve m cfg) = Some [].
Proof.
  intros Hstatic. each_config cfg; try discriminate Hstatic;
    destruct m; split; vm_compute; reflexivity.
Qed.

Lemma static_collapses_witness :
  let cfg := Config true true false true true true true in
  token_expansion Threads Export (resolve Threads cfg) = Some []
  ∧ token_expansion Threads NoExport (resolve Threads cfg) = Some [].
Proof.
  apply (static_collapses (Config true true false true true true true) Threads).
  reflexivity.
Defined.

(** C4. In every ambient configuration the composite tokens are bound to
    the export (resp. hidden) token followed by the deprecated token, and
    their expansion is the expansion of the export (resp. hidden) token
    followed by the expansion of the deprecated token, nothing else. *)
Theorem composite_tokens (cfg : config) (m : module) :
  let s := resolve m cfg in
  macros s !! token_name m DeprecatedExport =
    Some [Ident (token_name m Export); Ident (token_name m Deprecated)]
  ∧ macros s !! token_name m DeprecatedNoExport =
    Some [Ident (token_name m NoExport); Ident (token_name m Deprecated)]
  ∧ ∃ e h d,
      token_expansion m Export s = Some e
      ∧ token_expansion m NoExport s = Some h
      ∧ token_expansion m Deprecated s = Some d
      ∧ token_expansion m DeprecatedExport s = Some (e ++ d)%list
      ∧ token_expansion m DeprecatedNoExport s = Some (h ++ d)%list.
Proof.
  each_config cfg; destruct m;
    (split; [vm_compute; reflexivity|]);
    (split; [vm_compute; reflexivity|]);
    do 3 eexists; (split; [vm_compute; reflexivity|]);
    (split; [vm_compute; reflexivity|]);
    (split; [vm_compute; reflexivity|]);
    split; vm_compute; reflexivity.
Qed.

(** C6. The deprecated token depends on the two compiler signals only:
    it expands to __attribute__ ((__deprecated__)) when __GNUC__ is
    defined, otherwise to __declspec(deprecated) when _MSC_VER is defined,
    otherwise to nothing; two configurations that agree on the two signals
    give the same expansion, whatever their build mode, platform and
    internal-build flags are. *)
Theorem deprecated_by_compiler (cfg : config) (m : module) :
  token_expansion m Deprecated (resolve m cfg) =
    Some (if gnuc cfg then attribute_deprecated
          else if msc_ver cfg then declspec_deprecated
          else [])
  ∧ ∀ cfg',
      gnuc cfg' = gnuc cfg → msc_ver cfg' = msc_ver cfg →
      token_expansion m Deprecated (resolve m cfg')
      = token_expansion m Deprecated (resolve m cfg).
Proof.
  assert (∀ c, token_expansion m Deprecated (resolve m c) =
               Some (if gnuc c then attribute_deprecated
                     else if msc_ver c then declspec_deprecated
                     else [])) as Htable
    by (intros c; each_config c; destruct m; vm_compute; reflexivity).
  split; [apply Htable|].
  intros cfg' Hgnuc Hmsc. by rewrite !Htable, Hgnuc, Hmsc.
Qed.

Lemma deprecated_by_compiler_witness :
  let cfg := Config true true false true false false false in
  let cfg' := Config false false false true true true true in
  token_expansion Cms Deprecated (resolve Cms cfg) = Some declspec_deprecated
  ∧ token_expansion Cms Deprecated (resolve Cms cfg')
    = token_expansion Cms Deprecated (resolve Cms cfg).
Proof.
  intros cfg cfg'.
  destruct (deprecated_by_compiler cfg Cms) as [Htable Hsame].
  split; [exact Htable|]. apply Hsame; reflexivity.
Defined.

(** ** Unrecognised platforms and compilers *)

(** C7, as stated, fails: without _WIN32 the header takes the unix-like
    branch, and for an internal shared build the export token, which does
    depend on the platform signal, is the default-visibility attribute and
    not the empty replacement. *)
Lemma fail_open_counterexample :
  ¬ (∀ cfg m k,
       (win32 cfg = false ∧ platform_affects m k cfg)
       ∨ (gnuc cfg = false ∧ msc_ver cfg = false ∧ compiler_affects m k cfg) →
       token_expansion m k (resolve m cfg) = Some []).
Proof.
  intros Hclaim.
  specialize (Hclaim (Config false false false false true false false)
                Core Export).
  assert (token_expansion Core Export
            (resolve Core (Config false false false false true false false))
          = Some visibility_default) as Hcode by (vm_compute; reflexivity).
  rewrite Hcode in Hclaim. discriminate Hclaim.
  left. split; [reflexivity|]. exists true. vm_compute. discriminate.
Qed.

(** C7, amended.  No ambient configuration makes a header raise a
    diagnostic.  Without _WIN32 the unix-like branch
    is taken: in a shared build the export token is the default-visibility
    attribute under the internal-build flag and empty without it, and the
    hidden token is the hidden-visibility attribute; both are empty in a
    static build.  With neither __GNUC__ nor _MSC_VER the deprecated token
    is empty, so that the composite tokens expand to what the export and
    the hidden token expand to. *)
Theorem fail_open_amended (cfg : config) (m : module) :
  let s := resolve m cfg in
  diagnostics s = []
  ∧ (win32 cfg = false →
       token_expansion m Export s =
         Some (if static_define cfg then []
               else if internal_build cfg m then visibility_default else [])
       ∧ token_expansion m NoExport s =
         Some (if static_define cfg then [] else visibility_hidden))
  ∧ (gnuc cfg = false → msc_ver cfg = false →
       token_expansion m Deprecated s = Some []
       ∧ token_expansion m DeprecatedExport s = token_expansion m Export s
       ∧ token_expansion m DeprecatedNoExport s
         = token_expansion m NoExport s).
Proof.
  each_config cfg; destruct m;
    (split; [vm_compute; reflexivity|]);
    (split; [intros Hw; try discriminate Hw
            |intros Hg Hv; try discriminate Hg; try discriminate Hv]);
    repeat split; vm_compute; reflexivity.
Qed.

Lemma fail_open_amended_witness :
  let cfg := Config false false false false true false false in
  let s := resolve Core cfg in
  diagnostics s = []
  ∧ token_expansion Core Export s = Some visibility_default
  ∧ token_expansion Core Deprecated s = Some [].
Proof.
  destruct (fail_open_amended (Config false false false false true false false)
              Core) as (Hdiag & Hplatform & Hcompiler).
  split; [exact Hdiag|]. split.
  - exact (proj1 (Hplatform eq_refl)).
  - exact (proj1 (Hcompiler eq_refl eq_refl)).
Defined.

(** ** The names a header binds *)

(** C8, as stated, fails: besides the four markers the header binds its
    include guard and the deprecated token. *)
Lemma four_tokens_counterexample :
  ¬ (∀ cfg m,
       newly_bound m cfg =
       list_to_set (token_name m <$>
         [Export; NoExport; DeprecatedExport; DeprecatedNoExport])).
Proof.
  intros Hclaim.
  specialize (Hclaim (Config true false true false false false false) Core).
  assert ("JXL_DEPRECATED" ∈
            newly_bound Core (Config true false true false false false false))
    as Hin by compute_done.
  rewrite Hclaim in Hin. revert Hin. compute_done.
Qed.

(** C8, amended.  One inclusion binds exactly six names: the include guard
    and the five tokens (export, hidden, deprecated, deprecated-and-exported,
    deprecated-and-hidden).  No other name is bound or re-bound. *)
Theorem six_names_bound (cfg : config) (m : module) :
  newly_bound m cfg = list_to_set (defined_names m)
  ∧ ∀ x, x ∉ defined_names m →
         macros (resolve m cfg) !! x = macros (initial_state cfg) !! x.
Proof.
  split.
  - each_config cfg; destruct m; compute_done.
  - intros x Hx. by apply untouched_header.
Qed.

Lemma six_names_bound_witness :
  let cfg := Config false true false true true false false in
  newly_bound Core cfg = list_to_set (defined_names Core)
  ∧ macros (resolve Core cfg) !! "_WIN32"
    = macros (initial_state cfg) !! "_WIN32".
Proof.
  intros cfg. destruct (six_names_bound cfg Core) as [Hnew Hframe].
  split; [exact Hnew|]. apply Hframe. vm_compute.
  intros Hin. repeat (apply elem_of_cons in Hin as [Hin|Hin];
                      [discriminate Hin|]).
  by apply elem_of_nil in Hin.
Defined.

(** ** The three instances *)

(** C3. The three headers are the one resolver of the specification at
    the prefixes JXL, JXL_CMS and JXL_THREADS, their tokens are named by
    prefix and kind, and in every ambient configuration that gives the
    three internal-build flags the same value, every token kind has the
    same expansion, and the same diagnostics arise, in all three. *)
Theorem resolvers_agree :
  (∀ m, header m = visibility_policy_resolver (module_prefix m))
  ∧ (∀ m k, token_name m k = module_prefix m ++ token_suffix k)
  ∧ (∀ st w g v i m1 m2 k,
       let cfg := Config st w g v i i i in
       token_expansion m1 k (resolve m1 cfg)
       = token_expansion m2 k (resolve m2 cfg))
  ∧ (∀ st w g v i m1 m2,
       let cfg := Config st w g v i i i in
       diagnostics (resolve m1 cfg) = diagnostics (resolve m2 cfg)).
Proof.
  split; [by intros []|]. split; [by intros [] []|]. split.
  - assert (∀ st w g v i m k,
              token_expansion m k (resolve m (Config st w g v i i i))
              = token_expansion Core k (resolve Core (Config st w g v i i i)))
      as Hcore
      by (intros [] [] [] [] [] [] []; vm_compute; reflexivity).
    intros st w g v i m1 m2 k cfg. unfold cfg.
    by rewrite (Hcore _ _ _ _ _ m1), (Hcore _ _ _ _ _ m2).
  - assert (∀ st w g v i m, diagnostics (resolve m (Config st w g v i i i)) = [])
      as Hnone
      by (intros [] [] [] [] [] []; vm_compute; reflexivity).
    intros st w g v i m1 m2 cfg. unfold cfg. by rewrite !Hnone.
Qed.

(** ** Repeated inclusion *)

(** C5. Including a header a second or any further time changes nothing:
    the state after any number of inclusions, bindings and diagnostics
    alike, is the state after the first, from any macro table; the same
    holds when other directives that remove no binding come between two
    inclusions; and from an ambient configuration no diagnostic is ever
    raised. *)
Theorem reinclusion_is_noop :
  (∀ s m n, Nat.iter (S n) (header m) s = header m s)
  ∧ (∀ s m d, grows d → header m (d (header m s)) = d (header m s))
  ∧ (∀ cfg m n,
       diagnostics (Nat.iter (S n) (header m) (initial_state cfg)) = []).
Proof.
  assert (∀ s m n, Nat.iter (S n) (header m) s = header m s) as Hiter.
  { intros s m n. induction n as [|n IH]; [done|].
    change (header m (Nat.iter (S n) (header m) s) = header m s).
    rewrite IH. apply header_idempotent. }
  split; [exact Hiter|]. split.
  - intros s m d Hd. apply header_guarded, Hd, header_binds_guard.
  - intros cfg m n. rewrite Hiter.
    each_config cfg; destruct m; vm_compute; reflexivity.
Qed.

Lemma reinclusion_is_noop_witness :
  let s := initial_state (Config false false true false true true false) in
  header Core (header Cms (header Core s)) = header Cms (header Core s).
Proof.
  intros s. apply (proj1 (proj2 reinclusion_is_noop)). apply grows_header.
Defined.

(** ** One selector for static linkage *)

(** C9. Whatever else the including translation unit has bound, the three
    headers look at the one flag JXL_STATIC_DEFINE: if it is bound, all
    three bind their export and their hidden token to nothing; if it is
    not, all three bind their hidden token to the hidden-visibility
    attribute.  No table makes one header take the static branch and
    another the shared one. *)
Theorem one_static_selector (s : pp_state) :
  (∀ m, defined s (guard_name m) = false) →
  (defined s "JXL_STATIC_DEFINE" = true
   ∧ ∀ m, macros (header m s) !! token_name m Export = Some []
          ∧ macros (header m s) !! token_name m NoExport = Some [])
  ∨ (defined s "JXL_STATIC_DEFINE" = false
     ∧ ∀ m, macros (header m s) !! token_name m NoExport
            = Some visibility_hidden).
Proof.
  intros Hfirst.
  destruct (defined s "JXL_STATIC_DEFINE") eqn:Hstatic; [left|right];
    (split; [done|]); intros m; specialize (Hfirst m).
  - rewrite header_export_binding, header_no_export_binding by done.
    unfold export_choice, no_export_choice. by rewrite Hstatic.
  - rewrite header_no_export_binding by done.
    unfold no_export_choice. by rewrite Hstatic.
Qed.

Lemma one_static_selector_witness :
  let s := PPState {[ "JXL_CMS_STATIC_DEFINE" := [PPNumber "1"] ]} [] in
  (defined s "JXL_STATIC_DEFINE" = true
   ∧ ∀ m, macros (header m s) !! token_name m Export = Some []
          ∧ macros (header m s) !! token_name m NoExport = Some [])
  ∨ (defined s "JXL_STATIC_DEFINE" = false
     ∧ ∀ m, macros (header m s) !! token_name m NoExport
            = Some visibility_hidden).
Proof.
  apply (one_static_selector
           (PPState {[ "JXL_CMS_STATIC_DEFINE" := [PPNumber "1"] ]} [])).
  intros []; vm_compute; reflexivity.
Defined.

(** The same holds of a translation unit that includes several of the
    headers one after another, in any order and any number of times: no
    header binds a name that another one tests or binds. *)
Lemma names_apart m m' x :
  m ≠ m' → x ∈ defined_names m → x ∉ defined_names m'.
Proof.
  intros Hne. revert x. apply Forall_forall.
  destruct m, m'; try done; compute_done.
Qed.

Lemma static_flag_untouched m s :
  defined (header m s) "JXL_STATIC_DEFINE" = defined s "JXL_STATIC_DEFINE".
Proof.
  unfold defined. rewrite untouched_header; [done|].
  destruct m; compute_done.
Qed.

Lemma include_all_snoc ms m s :
  include_all (ms ++ [m]) s = header m (include_all ms s).
Proof. unfold include_all. by rewrite foldl_app. Qed.

Lemma include_all_static s ms :
  (∀ m, defined s (guard_name m) = false) →
  defined (include_all ms s) "JXL_STATIC_DEFINE"
    = defined s "JXL_STATIC_DEFINE"
  ∧ (∀ m, m ∉ ms → defined (include_all ms s) (guard_name m) = false)
  ∧ (∀ m, m ∈ ms →
       defined (include_all ms s) (guard_name m) = true
       ∧ macros (include_all ms s) !! token_name m Export
         = Some (export_choice s m)
       ∧ macros (include_all ms s) !! token_name m NoExport
         = Some (no_export_choice s)).
Proof.
  intros Hfirst. induction ms as [|m0 ms (IHstatic & IHout & IHin)] using rev_ind.
  { split; [done|]. split; [by intros m _|]. by intros m ?%elem_of_nil. }
  rewrite include_all_snoc. set (s' := include_all ms s) in *.
  assert (∀ m x, m ≠ m0 → x ∈ defined_names m →
            macros (header m0 s') !! x = macros s' !! x) as Hframe.
  { intros m x Hne Hx. by apply untouched_header, (names_apart m). }
  split; [by rewrite static_flag_untouched|]. split.
  - intros m [Hms Hm0%not_elem_of_cons]%not_elem_of_app.
    destruct Hm0 as [Hm0 _]. unfold defined.
    rewrite (Hframe m) by (done || apply list_elem_of_here). by apply IHout.
  - intros m Hm. destruct (decide (m0 ∈ ms)) as [Hseen|Hnew].
    + (* [m0] was included before: its guard is bound, nothing happens *)
      rewrite header_guarded by (by apply IHin). apply IHin.
      apply elem_of_app in Hm as [Hm|Hm%list_elem_of_singleton]; by subst.
    + destruct (decide (m = m0)) as [->|Hne].
      * (* first inclusion of [m0] *)
        specialize (IHout m0 Hnew).
        split; [apply header_binds_guard|].
        rewrite header_export_binding, header_no_export_binding by done.
        assert (∀ x, x ∉ defined_names Core → x ∉ defined_names Cms →
                     x ∉ defined_names Threads →
                     defined s' x = defined s x) as Hflags.
        { intros x HC HM HT. unfold s', include_all.
          clear -HC HM HT. revert s.
          induction ms as [|m ms IH]; intros s; [done|]. simpl.
          rewrite IH. unfold defined. rewrite untouched_header; [done|].
          by destruct m. }
        unfold export_choice, no_export_choice.
        rewrite (Hflags "JXL_STATIC_DEFINE"), (Hflags "_WIN32"),
          (Hflags (internal_build_name m0));
          try done; try compute_done; destruct m0; compute_done.
      * assert (m ∈ ms) as Hms.
        { apply elem_of_app in Hm as [Hm|Hm%list_elem_of_singleton]; done. }
        destruct (IHin m Hms) as (Hguard & HE & HN).
        unfold defined. rewrite !(Hframe m); try done.
        -- apply list_elem_of_further, list_elem_of_further, list_elem_of_here.
        -- apply list_elem_of_further, list_elem_of_here.
        -- apply list_elem_of_here.
Qed.

(** X7. A translation unit that includes any of the three headers, in
    any order and any number of times, cannot mix static and shared: if
    JXL_STATIC_DEFINE is bound, every header included binds its export and
    its hidden token to nothing; if not, every one binds its hidden token
    to the hidden-visibility attribute. *)
Lemma one_static_selector_any_order s ms :
  (∀ m, defined s (guard_name m) = false) →
  (defined s "JXL_STATIC_DEFINE" = true
   ∧ ∀ m, m ∈ ms →
          macros (include_all ms s) !! token_name m Export = Some []
          ∧ macros (include_all ms s) !! token_name m NoExport = Some [])
  ∨ (defined s "JXL_STATIC_DEFINE" = false
     ∧ ∀ m, m ∈ ms →
            macros (include_all ms s) !! token_name m NoExport
            = Some visibility_hidden).
Proof.
  intros Hfirst. destruct (include_all_static s ms Hfirst) as (_ & _ & Hin).
  destruct (defined s "JXL_STATIC_DEFINE") eqn:Hstatic; [left|right];
    (split; [done|]); intros m Hm; destruct (Hin m Hm) as (_ & HE & HN);
    rewrite ?HE, HN; unfold export_choice, no_export_choice;
    by rewrite Hstatic.
Qed.

(** ** Tokens bound before the first inclusion *)

(** C10. At the first inclusion of a header (include guard not yet bound),
    a binding the translation unit already has for the deprecated token or
    for either composite token is left as it is.  The export and the
    hidden token are bound by a plain [#define]: whatever they were bound
    to before, afterwards they are bound to what the flags select, and
    when that differs from the earlier binding the re-definition is
    diagnosed. *)
Theorem prebound_tokens (s : pp_state) (m : module) :
  defined s (guard_name m) = false →
  (∀ k body,
     k ∈ [Deprecated; DeprecatedExport; DeprecatedNoExport] →
     macros s !! token_name m k = Some body →
     macros (header m s) !! token_name m k = Some body)
  ∧ macros (header m s) !! token_name m Export =
      Some (if defined s "JXL_STATIC_DEFINE" then []
            else if defined s "_WIN32"
                 then if defined s (internal_build_name m)
                      then declspec_dllexport else declspec_dllimport
                 else if defined s (internal_build_name m)
                      then visibility_default else [])
  ∧ macros (header m s) !! token_name m NoExport =
      Some (if defined s "JXL_STATIC_DEFINE" then [] else visibility_hidden)
  ∧ (∀ k old new,
       k ∈ [Export; NoExport] →
       macros s !! token_name m k = Some old →
       macros (header m s) !! token_name m k = Some new →
       old ≠ new →
       MacroRedefined (token_name m k) ∈ diagnostics (header m s)).
Proof.
  intros Hguard. split; [|split; [|split]].
  - intros k body Hk Hbound. by apply keeps_header.
  - by apply header_export_binding.
  - by apply header_no_export_binding.
  - intros k old new Hk Hold Hnew Hne.
    by apply (header_override_reported s m k old new).
Qed.

Lemma prebound_tokens_witness :
  let s := PPState {[ "JXL_DEPRECATED" := [Ident "MY_DEPRECATED"];
                      "JXL_EXPORT" := [Ident "MY_API"] ]} [] in
  macros (header Core s) !! "JXL_DEPRECATED" = Some [Ident "MY_DEPRECATED"]
  ∧ macros (header Core s) !! "JXL_EXPORT" = Some []
  ∧ MacroRedefined "JXL_EXPORT" ∈ diagnostics (header Core s).
Proof.
  intros s.
  destruct (prebound_tokens s Core) as (Hkept & Hexport & _ & Hdiag).
  { vm_compute. reflexivity. }
  split; [|split].
  - apply (Hkept Deprecated); [|vm_compute; reflexivity].
    apply list_elem_of_here.
  - exact Hexport.
  - apply (Hdiag Export [Ident "MY_API"] []).
    + apply list_elem_of_here.
    + vm_compute. reflexivity.
    + exact Hexport.
    + discriminate.
Defined.

(** ** The headers on arbitrary macro tables *)
Lemma diagnostics_define name body s :
  diagnostics (define name body s)
  = (diagnostics s ++ redefinition name (macros s !! name) body)%list.
Proof.
  unfold define, redefinition. destruct (macros s !! name) as [old|].
  - case_decide; [by rewrite app_nil_r|done].
  - by rewrite app_nil_r.
Qed.

Lemma define_if_absent_silent x body s :
  diagnostics (ifndef x (define x body) s) = diagnostics s.
Proof.
  unfold ifndef. destruct (defined s x) eqn:Hx; [done|].
  rewrite diagnostics_define, (defined_false _ _ Hx). apply app_nil_r.
Qed.

Lemma guarded_defines_silent m deprecation s :
  diagnostics (guarded_defines m deprecation s) = diagnostics s.
Proof.
  unfold guarded_defines, then_. by rewrite !define_if_absent_silent.
Qed.

Lemma header_diagnostics m s :
  diagnostics (header m s) = (diagnostics s ++ new_diagnostics m s)%list.
Proof.
  unfold new_diagnostics. destruct (defined s (guard_name m)) eqn:Hguard.
  - rewrite header_guarded by done. by rewrite app_nil_r.
  - rewrite header_straight_line by done.
    rewrite guarded_defines_silent, !diagnostics_define.
    rewrite !lookup_define_ne by (destruct m; discriminate).
    rewrite (defined_false _ _ Hguard). simpl. by rewrite app_nil_r, app_assoc.
Qed.

Lemma lookup_define_if_absent x body s :
  macros (ifndef x (define x body) s) !! x
  = Some (default body (macros s !! x)).
Proof.
  unfold ifndef, defined. destruct (macros s !! x) as [old|] eqn:Hx.
  - by rewrite bool_decide_eq_true_2.
  - rewrite bool_decide_eq_false_2 by apply is_Some_None.
    apply lookup_define_eq.
Qed.

Lemma lookup_define_if_absent_ne x y body s :
  x ≠ y → macros (ifndef x (define x body) s) !! y = macros s !! y.
Proof. intros Hne. by apply untouched_ifndef, untouched_define. Qed.

(** The macro table after a first inclusion, name by name. *)
Lemma header_guard_binding s m :
  defined s (guard_name m) = false →
  macros (header m s) !! guard_name m = Some [].
Proof.
  intros Hguard. rewrite header_straight_line by done.
  unfold guarded_defines, then_.
  rewrite !lookup_define_if_absent_ne by (destruct m; discriminate).
  rewrite !lookup_define_ne by (destruct m; discriminate).
  apply lookup_define_eq.
Qed.

Lemma header_token_binding s m k :
  defined s (guard_name m) = false →
  macros (header m s) !! token_name m k =
  Some match k with
       | Export => export_choice s m
       | NoExport => no_export_choice s
       | Deprecated =>
           default (deprecated_choice s) (macros s !! token_name m Deprecated)
       | DeprecatedExport =>
           default [Ident (token_name m Export);
                    Ident (token_name m Deprecated)]
             (macros s !! token_name m DeprecatedExport)
       | DeprecatedNoExport =>
           default [Ident (token_name m NoExport);
                    Ident (token_name m Deprecated)]
             (macros s !! token_name m DeprecatedNoExport)
       end.
Proof.
  intros Hguard. destruct k.
  - by apply header_export_binding.
  - by apply header_no_export_binding.
  - destruct (macros s !! token_name m Deprecated) as [old|] eqn:Hold.
    + apply keeps_header; [apply list_elem_of_here|done].
    + by rewrite (header_guarded_binding s m Deprecated).
  - destruct (macros s !! token_name m DeprecatedExport) as [old|] eqn:Hold.
    + apply keeps_header;
        [apply list_elem_of_further, list_elem_of_here|done].
    + by rewrite (header_guarded_binding s m DeprecatedExport).
  - destruct (macros s !! token_name m DeprecatedNoExport) as [old|] eqn:Hold.
    + apply keeps_header;
        [apply list_elem_of_further, list_elem_of_further,
           list_elem_of_here|done].
    + by rewrite (header_guarded_binding s m DeprecatedNoExport).
Qed.

Lemma defined_agree s s' x :
  macros s !! x = macros s' !! x → defined s x = defined s' x.
Proof. unfold defined. by intros ->. Qed.

(** What a header binds is decided by the names it tests, and by nothing
    else in the table. *)
Lemma header_local m s s' x :
  (∀ y, y ∈ tested_names m → macros s !! y = macros s' !! y) →
  macros s !! x = macros s' !! x →
  macros (header m s) !! x = macros (header m s') !! x.
Proof.
  intros Htested Hx.
  assert (∀ n : nat, ∀ y, tested_names m !! n = Some y →
                          defined s y = defined s' y) as Hflag.
  { intros n y Hy. apply defined_agree, Htested.
    by apply list_elem_of_lookup_2 in Hy. }
  assert (export_choice s m = export_choice s' m) as HE.
  { unfold export_choice.
    by rewrite (Hflag 0 "JXL_STATIC_DEFINE"), (Hflag 1 "_WIN32"),
      (Hflag 4 (internal_build_name m)). }
  assert (no_export_choice s = no_export_choice s') as HN.
  { unfold no_export_choice. by rewrite (Hflag 0 "JXL_STATIC_DEFINE"). }
  assert (deprecated_choice s = deprecated_choice s') as HD.
  { unfold deprecated_choice.
    by rewrite (Hflag 2 "__GNUC__"), (Hflag 3 "_MSC_VER"). }
  destruct (decide (x ∈ defined_names m)) as [Hin|Hout];
    [|by rewrite !untouched_header].
  pose proof (Hflag 5 (guard_name m) eq_refl) as Hguard.
  destruct (defined s (guard_name m)) eqn:Hg.
  { by rewrite !header_guarded. }
  symmetry in Hguard. unfold defined_names in Hin.
  apply elem_of_cons in Hin as [->|Hin].
  { by rewrite !header_guard_binding. }
  apply list_elem_of_fmap in Hin as (k & -> & _).
  rewrite !header_token_binding by done.
  rewrite HE, HN, HD. f_equal. destruct k; try done.
  - by rewrite (Htested (token_name m Deprecated))
      by (by apply (list_elem_of_lookup_2 _ 6)).
  - by rewrite (Htested (token_name m DeprecatedExport))
      by (by apply (list_elem_of_lookup_2 _ 7)).
  - by rewrite (Htested (token_name m DeprecatedNoExport))
      by (by apply (list_elem_of_lookup_2 _ 8)).
Qed.

Lemma tested_names_apart m m' y :
  m ≠ m' → y ∈ tested_names m → y ∉ defined_names m'.
Proof.
  intros Hne. revert y. apply Forall_forall.
  destruct m, m'; try done; compute_done.
Qed.

Lemma new_diagnostics_local m s s' :
  (∀ y, y ∈ tested_names m → macros s !! y = macros s' !! y) →
  macros s !! token_name m Export = macros s' !! token_name m Export →
  macros s !! token_name m NoExport = macros s' !! token_name m NoExport →
  new_diagnostics m s = new_diagnostics m s'.
Proof.
  intros Htested HE HN.
  assert (∀ n : nat, ∀ y, tested_names m !! n = Some y →
                          defined s y = defined s' y) as Hflag.
  { intros n y Hy. apply defined_agree, Htested.
    by apply list_elem_of_lookup_2 in Hy. }
  unfold new_diagnostics, export_choice, no_export_choice.
  by rewrite (Hflag 0 "JXL_STATIC_DEFINE"), (Hflag 1 "_WIN32"),
    (Hflag 4 (internal_build_name m)), (Hflag 5 (guard_name m)), HE, HN.
Qed.

Lemma same_outcome_refl s : same_outcome s s.
Proof. by split. Qed.

Lemma same_outcome_trans s1 s2 s3 :
  same_outcome s1 s2 → same_outcome s2 s3 → same_outcome s1 s3.
Proof. intros [Hm1 Hd1] [Hm2 Hd2]. split; by etrans. Qed.

Lemma header_proper m s s' :
  same_outcome s s' → same_outcome (header m s) (header m s').
Proof.
  intros [Hmacros Hdiag]. split.
  - apply map_eq. intros x. apply header_local; by rewrite Hmacros.
  - rewrite !header_diagnostics.
    rewrite (new_diagnostics_local m s s') by (by rewrite Hmacros).
    by apply Permutation_app.
Qed.

Lemma header_commute s m1 m2 :
  same_outcome (header m1 (header m2 s)) (header m2 (header m1 s)).
Proof.
  destruct (decide (m1 = m2)) as [->|Hne]; [apply same_outcome_refl|].
  assert (∀ m m' x, m ≠ m' → x ∈ tested_names m ∨ x ∈ defined_names m →
            macros (header m' s) !! x = macros s !! x) as Hframe.
  { intros m m' x Hmm [Hx|Hx]; apply untouched_header.
    - by apply (tested_names_apart m).
    - by apply (names_apart m). }
  split.
  - apply map_eq. intros x.
    destruct (decide (x ∈ defined_names m1)) as [H1|H1].
    + rewrite (untouched_header m2 x) by (by apply (names_apart m1)).
      apply header_local.
      * intros y Hy. apply (Hframe m1); auto.
      * apply (Hframe m1); auto.
    + rewrite (untouched_header m1 x) by done.
      destruct (decide (x ∈ defined_names m2)) as [H2|H2].
      * symmetry. apply header_local.
        -- intros y Hy. apply (Hframe m2); auto.
        -- apply (Hframe m2); auto.
      * by rewrite !(untouched_header m2 x), (untouched_header m1 x).
  - rewrite !header_diagnostics.
    rewrite (new_diagnostics_local m1 (header m2 s) s).
    + rewrite (new_diagnostics_local m2 (header m1 s) s).
      * rewrite <- !app_assoc. apply Permutation_app_head, Permutation_app_comm.
      * intros y Hy. apply (Hframe m2); auto.
      * apply (Hframe m2); [done|]. right.
        apply list_elem_of_further, list_elem_of_here.
      * apply (Hframe m2); [done|]. right.
        apply list_elem_of_further, list_elem_of_further, list_elem_of_here.
    + intros y Hy. apply (Hframe m1); auto.
    + apply (Hframe m1); [done|]. right.
      apply list_elem_of_further, list_elem_of_here.
    + apply (Hframe m1); [done|]. right.
      apply list_elem_of_further, list_elem_of_further, list_elem_of_here.
Qed.

Lemma include_all_cons m ms s :
  include_all (m :: ms) s = include_all ms (header m s).
Proof. reflexivity. Qed.

Lemma include_all_proper ms s s' :
  same_outcome s s' → same_outcome (include_all ms s) (include_all ms s').
Proof.
  revert s s'. induction ms as [|m ms IH]; intros s s' Hs; [done|].
  rewrite !include_all_cons. by apply IH, header_proper.
Qed.

(** X6. The order in which a translation unit includes the headers, each
    any number of times, does not matter: two orders that are
    permutations of one another give the same macro table and the same
    diagnostics up to their order, from any table. *)
Theorem include_all_any_order ms ms' s :
  ms ≡ₚ ms' → same_outcome (include_all ms s) (include_all ms' s).
Proof.
  intros Hperm. revert s.
  induction Hperm as [|m ms ms' _ IH|m1 m2 ms|ms1 ms2 ms3 _ IH1 _ IH2];
    intros s.
  - apply same_outcome_refl.
  - rewrite !include_all_cons. apply IH.
  - rewrite !include_all_cons. apply include_all_proper, header_commute.
  - eapply same_outcome_trans; [apply IH1|apply IH2].
Qed.

Lemma pp_state_eq s s' :
  macros s = macros s' → diagnostics s = diagnostics s' → s = s'.
Proof. destruct s, s'; simpl; by intros -> ->. Qed.



Lemma choices_agree m s s' :
  (∀ y, y ∈ flag_names m → macros s !! y = macros s' !! y) →
  export_choice s m = export_choice s' m
  ∧ no_export_choice s = no_export_choice s'
  ∧ deprecated_choice s = deprecated_choice s'.
Proof.
  intros Hflags.
  assert (∀ n : nat, ∀ y, flag_names m !! n = Some y →
                          defined s y = defined s' y) as Hflag.
  { intros n y Hy. apply defined_agree, Hflags.
    by apply list_elem_of_lookup_2 in Hy. }
  unfold export_choice, no_export_choice, deprecated_choice.
  by rewrite (Hflag 0 "JXL_STATIC_DEFINE"), (Hflag 1 "_WIN32"),
    (Hflag 2 "__GNUC__"), (Hflag 3 "_MSC_VER"),
    (Hflag 4 (internal_build_name m)).
Qed.

Lemma flag_names_free m m' y : y ∈ flag_names m → y ∉ defined_names m'.
Proof.
  revert y. apply Forall_forall. destruct m, m'; compute_done.
Qed.

(** X5. Re-inclusion is harmless even without the include guard: if
    after a first inclusion the guard is unbound again and the header is
    included once more, the state, diagnostics included, is the one after
    the first inclusion.  The two plain definitions re-bind what is bound
    already and the other three are guarded one by one. *)
Theorem reinclusion_without_guard s m :
  defined s (guard_name m) = false →
  header m (PPState (delete (guard_name m) (macros (header m s)))
              (diagnostics (header m s)))
  = header m s.
Proof.
  intros Hguard.
  set (s1 := header m s).
  set (s' := PPState (delete (guard_name m) (macros s1)) (diagnostics s1)).
  assert (defined s' (guard_name m) = false) as Hguard'.
  { unfold defined, s'. simpl. rewrite lookup_delete_eq.
    by apply bool_decide_eq_false_2, is_Some_None. }
  assert (∀ x, x ≠ guard_name m → macros s' !! x = macros s1 !! x) as Hsame.
  { intros x Hx. unfold s'. simpl. by rewrite lookup_delete_ne. }
  assert (∀ k, macros s' !! token_name m k = macros s1 !! token_name m k)
    as Htoken.
  { intros k. apply Hsame. destruct m, k; discriminate. }
  destruct (choices_agree m s' s) as (HE & HN & HD).
  { intros y Hy. rewrite Hsame.
    - by apply untouched_header, (flag_names_free m).
    - intros ->. apply (flag_names_free m m) in Hy. apply Hy.
      apply list_elem_of_here. }
  apply pp_state_eq.
  - apply map_eq. intros x.
    destruct (decide (x ∈ defined_names m)) as [Hin|Hout].
    + unfold defined_names in Hin. apply elem_of_cons in Hin as [->|Hin].
      { unfold s1. by rewrite !header_guard_binding. }
      apply list_elem_of_fmap in Hin as (k & -> & _).
      rewrite (header_token_binding s' m k) by done.
      rewrite HE, HN, HD, !Htoken. unfold s1.
      rewrite !(header_token_binding s m) by done.
      by destruct k.
    + rewrite untouched_header by done. apply Hsame.
      intros ->. apply Hout, list_elem_of_here.
  - rewrite header_diagnostics. unfold new_diagnostics.
    rewrite Hguard', HE, HN, !Htoken.
    change (diagnostics s') with (diagnostics s1). clear s' Hguard' Hsame Htoken HE HN HD. subst s1.
    rewrite header_export_binding, header_no_export_binding by done.
    unfold redefinition. rewrite !decide_True by done. apply app_nil_r.
Qed.

Lemma expand_fuel_le (fuel fuel' : nat) env painted ts r :
  (fuel ≤ fuel')%nat →
  expand fuel env painted ts = Some r → expand fuel' env painted ts = Some r.
Proof.
  intros Hle Hr. induction Hle as [|fuel' _ IH]; [done|].
  by apply expand_more_fuel.
Qed.

(** Whatever fuel a replacement succeeds with, its result is the complete
    replacement. *)
Lemma expansion_by_any_fuel fuel s ts r :
  expand fuel (macros s) ∅ ts = Some r → expansion s ts = Some r.
Proof.
  intros Hr. destruct (expansion_total s ts) as [r' Hr']. rewrite Hr'.
  unfold expansion in Hr'.
  apply (expand_fuel_le _ (Nat.max fuel (S (size (macros s))))) in Hr; [|lia].
  apply (expand_fuel_le _ (Nat.max fuel (S (size (macros s))))) in Hr'; [|lia].
  congruence.
Qed.

Lemma expand_inert fuel env painted ts :
  inert env ts → expand (S fuel) env painted ts = Some ts.
Proof.
  induction 1 as [|t ts Ht _ IH]; [done|].
  rewrite expand_unfold, IH. destruct t as [x| | |]; try done.
  case_decide; [done|]. by rewrite Ht.
Qed.

Lemma expand_macro fuel env painted x body :
  env !! x = Some body → x ∉ painted → inert env body →
  expand (S (S fuel)) env painted [Ident x] = Some body.
Proof.
  intros Hx Hfree Hbody. rewrite expand_unfold, expand_nil.
  rewrite decide_False by done. rewrite Hx, expand_inert by done.
  by rewrite app_nil_r.
Qed.

Lemma expand_pair fuel env painted x a b body_a body_b :
  env !! x = Some [Ident a; Ident b] → x ∉ painted →
  a ≠ x → b ≠ x → a ∉ painted → b ∉ painted →
  env !! a = Some body_a → env !! b = Some body_b →
  inert env body_a → inert env body_b →
  expand (S (S (S fuel))) env painted [Ident x] = Some (body_a ++ body_b)%list.
Proof.
  intros Hx Hfree Hax Hbx Ha Hb Hba Hbb Hia Hib.
  rewrite expand_unfold, expand_nil, decide_False, Hx by done.
  change [Ident a; Ident b] with ([Ident a] ++ [Ident b])%list.
  assert (∀ y, y ≠ x → y ∉ painted → y ∉ ({[x]} ∪ painted : gset string))
    as Hpaint.
  { intros y Hyx Hy [?%elem_of_singleton|?]%elem_of_union; done. }
  rewrite expand_app, (expand_macro fuel env _ a body_a),
    (expand_macro fuel env _ b body_b) by auto.
  by rewrite app_nil_r.
Qed.

Lemma inert_choices env s m :
  (∀ x, x ∈ attribute_identifiers → env !! x = None) →
  inert env (export_choice s m) ∧ inert env (no_export_choice s)
  ∧ inert env (deprecated_choice s).
Proof.
  intros Hfree.
  assert (∀ ts,
            Forall (fun t => match t with
                             | Ident x => x ∈ attribute_identifiers
                             | _ => True
                             end) ts → inert env ts) as Hinert.
  { intros ts Hts. eapply Forall_impl; [exact Hts|].
    intros [x| | |]; auto. }
  unfold export_choice, no_export_choice, deprecated_choice.
  repeat split; repeat case_match; apply Hinert; repeat constructor.
Qed.

Lemma attribute_identifiers_free m x :
  x ∈ attribute_identifiers → x ∉ defined_names m.
Proof. revert x. apply Forall_forall. destruct m; compute_done. Qed.

(** X8. The decision table on any macro table.  At a first inclusion,
    when the deprecated and the composite tokens are not bound yet and no
    identifier of the attributes is itself a macro, the five tokens expand
    to what the flags of the table select: the export and the hidden
    attribute, the deprecation attribute, and for the composite tokens the
    former followed by the latter.  An earlier binding of the export or
    the hidden token makes no difference. *)
Theorem decision_table_on_any_table s m :
  defined s (guard_name m) = false →
  (∀ k, k ∈ [Deprecated; DeprecatedExport; DeprecatedNoExport] →
        macros s !! token_name m k = None) →
  (∀ x, x ∈ attribute_identifiers → macros s !! x = None) →
  token_expansion m Export (header m s) = Some (export_choice s m)
  ∧ token_expansion m NoExport (header m s) = Some (no_export_choice s)
  ∧ token_expansion m Deprecated (header m s) = Some (deprecated_choice s)
  ∧ token_expansion m DeprecatedExport (header m s)
    = Some (export_choice s m ++ deprecated_choice s)%list
  ∧ token_expansion m DeprecatedNoExport (header m s)
    = Some (no_export_choice s ++ deprecated_choice s)%list.
Proof.
  intros Hguard Hfree Hattr.
  destruct (inert_choices (macros (header m s)) s m) as (HiE & HiN & HiD).
  { intros x Hx. rewrite untouched_header; [by apply Hattr|].
    by apply attribute_identifiers_free. }
  pose proof (header_token_binding s m Export Hguard) as HE.
  pose proof (header_token_binding s m NoExport Hguard) as HN.
  pose proof (header_token_binding s m Deprecated Hguard) as HD.
  pose proof (header_token_binding s m DeprecatedExport Hguard) as HDE.
  pose proof (header_token_binding s m DeprecatedNoExport Hguard) as HDN.
  rewrite (Hfree Deprecated) in HD by repeat constructor.
  rewrite (Hfree DeprecatedExport) in HDE by repeat constructor.
  rewrite (Hfree DeprecatedNoExport) in HDN by repeat constructor.
  simpl in HE, HN, HD, HDE, HDN. unfold token_expansion.
  repeat split.
  - by apply (expansion_by_any_fuel 2), expand_macro.
  - by apply (expansion_by_any_fuel 2), expand_macro.
  - by apply (expansion_by_any_fuel 2), expand_macro.
  - apply (expansion_by_any_fuel 3).
    apply (expand_pair _ _ _ _ (token_name m Export)
             (token_name m Deprecated)); try done;
      destruct m; discriminate.
  - apply (expansion_by_any_fuel 3).
    apply (expand_pair _ _ _ _ (token_name m NoExport)
             (token_name m Deprecated)); try done;
      destruct m; discriminate.
Qed.

(** X1. On any macro table, including a header changes the binding of no
    name other than the six it defines: in particular of none of the
    flags that it or another header tests, and of no name that another
    module's header defines. *)
Theorem header_changes_only_its_names (s : pp_state) (m : module) :
  (∀ x, x ∉ defined_names m → macros (header m s) !! x = macros s !! x)
  ∧ (∀ m' y, y ∈ flag_names m' → macros (header m s) !! y = macros s !! y)
  ∧ (∀ m' y, m' ≠ m → y ∈ defined_names m' →
             macros (header m s) !! y = macros s !! y).
Proof.
  split; [|split].
  - intros x Hx. by apply untouched_header.
  - intros m' y Hy. by apply untouched_header, (flag_names_free m').
  - intros m' y Hne Hy. by apply untouched_header, (names_apart m').
Qed.

(** X2. The only bindings a header can overwrite are those of its export
    and of its hidden token: every other name bound before an inclusion,
    the include guard, the deprecated token and the composite tokens
    included, is bound to the same replacement list afterwards. *)
Theorem header_overwrites_only_export_tokens s m x body :
  macros s !! x = Some body →
  x ≠ token_name m Export → x ≠ token_name m NoExport →
  macros (header m s) !! x = Some body.
Proof.
  intros Hx HE HN.
  destruct (decide (x ∈ defined_names m)) as [Hin|Hout];
    [|by rewrite untouched_header].
  unfold defined_names in Hin. apply elem_of_cons in Hin as [->|Hin].
  { rewrite header_guarded; [done|].
    unfold defined. apply bool_decide_eq_true_2. by rewrite Hx. }
  apply list_elem_of_fmap in Hin as (k & -> & _).
  destruct k; try done; apply keeps_header; try done; repeat constructor.
Qed.

Lemma header_overwrites_only_export_tokens_witness :
  let s := PPState {[ "JXL_CMS_DEPRECATED_EXPORT" := [Ident "MY_OLD_API"];
                      "JXL_CMS_EXPORT" := [Ident "MY_API"] ]} [] in
  macros (header Cms s) !! "JXL_CMS_DEPRECATED_EXPORT"
  = Some [Ident "MY_OLD_API"].
Proof.
  intros s.
  apply (header_overwrites_only_export_tokens s Cms
           "JXL_CMS_DEPRECATED_EXPORT" [Ident "MY_OLD_API"]).
  - vm_compute. reflexivity.
  - discriminate.
  - discriminate.
Defined.

(** X3. The macro table after a first inclusion, on any table: the
    guard is bound to nothing, the export and the hidden token to what
    the flags select, and the deprecated and the composite tokens keep the
    binding they had or, when they had none, get the compiler's
    deprecation attribute and the two-token lists. *)
Theorem first_inclusion_table s m :
  defined s (guard_name m) = false →
  macros (header m s) !! guard_name m = Some []
  ∧ macros (header m s) !! token_name m Export = Some (export_choice s m)
  ∧ macros (header m s) !! token_name m NoExport = Some (no_export_choice s)
  ∧ macros (header m s) !! token_name m Deprecated
    = Some (default (deprecated_choice s)
              (macros s !! token_name m Deprecated))
  ∧ macros (header m s) !! token_name m DeprecatedExport
    = Some (default [Ident (token_name m Export);
                     Ident (token_name m Deprecated)]
              (macros s !! token_name m DeprecatedExport))
  ∧ macros (header m s) !! token_name m DeprecatedNoExport
    = Some (default [Ident (token_name m NoExport);
                     Ident (token_name m Deprecated)]
              (macros s !! token_name m DeprecatedNoExport)).
Proof.
  intros Hguard. split; [by apply header_guard_binding|].
  repeat split.
  - apply (header_token_binding s m Export Hguard).
  - apply (header_token_binding s m NoExport Hguard).
  - apply (header_token_binding s m Deprecated Hguard).
  - apply (header_token_binding s m DeprecatedExport Hguard).
  - apply (header_token_binding s m DeprecatedNoExport Hguard).
Qed.

Lemma first_inclusion_table_witness :
  let s := PPState {[ "_MSC_VER" := [PPNumber "1930"];
                      "_WIN32" := [PPNumber "1"];
                      "JXL_THREADS_DEPRECATED" := [] ]} [] in
  macros (header Threads s) !! "JXL_THREADS_EXPORT" = Some declspec_dllimport
  ∧ macros (header Threads s) !! "JXL_THREADS_DEPRECATED" = Some [].
Proof.
  intros s. destruct (first_inclusion_table s Threads)
    as (_ & HE & _ & HD & _); [vm_compute; reflexivity|].
  split; [exact HE|exact HD].
Defined.


(** X9. In a static build the export and the hidden token expand to
    nothing at a first inclusion on any macro table, whatever else the
    table binds. *)
Theorem static_collapses_on_any_table s m :
  defined s (guard_name m) = false →
  defined s "JXL_STATIC_DEFINE" = true →
  token_expansion m Export (header m s) = Some []
  ∧ token_expansion m NoExport (header m s) = Some [].
Proof.
  intros Hguard Hstatic.
  pose proof (header_token_binding s m Export Hguard) as HE.
  pose proof (header_token_binding s m NoExport Hguard) as HN.
  unfold export_choice, no_export_choice in HE, HN. rewrite Hstatic in HE, HN.
  unfold token_expansion. split.
  - apply (expansion_by_any_fuel 2), expand_macro; try done. constructor.
  - apply (expansion_by_any_fuel 2), expand_macro; try done. constructor.
Qed.

Lemma static_collapses_on_any_table_witness :
  let s := PPState {[ "JXL_STATIC_DEFINE" := [];
                      "__attribute__" := [Ident "visibility"];
                      "JXL_EXPORT" := [Ident "JXL_NO_EXPORT"] ]} [] in
  token_expansion Core Export (header Core s) = Some []
  ∧ token_expansion Core NoExport (header Core s) = Some [].
Proof.
  intros s. apply (static_collapses_on_any_table s Core).
  - vm_compute. reflexivity.
  - vm_compute. reflexivity.
Defined.

(** X10. The internal-build flag of another module is irrelevant to a
    header: binding it, to anything, changes none of the bindings the
    header gives its own tokens. *)
Theorem foreign_internal_flag_irrelevant s m m' body k :
  m ≠ m' →
  macros (header m (PPState (<[internal_build_name m' := body]> (macros s))
                      (diagnostics s))) !! token_name m k
  = macros (header m s) !! token_name m k.
Proof.
  intros Hne.
  assert (∀ y, y ∈ tested_names m ∨ y ∈ defined_names m →
               internal_build_name m' ≠ y) as Hother.
  { intros y Hy%elem_of_app. revert y Hy. apply Forall_forall.
    destruct m, m'; try done; compute_done. }
  apply header_local.
  - intros y Hy. simpl. rewrite lookup_insert_ne; [done|]. apply Hother; auto.
  - simpl. rewrite lookup_insert_ne; [done|]. apply Hother. right.
    unfold defined_names. apply list_elem_of_further, list_elem_of_fmap.
    exists k. split; [done|]. destruct k; repeat constructor.
Qed.

Lemma foreign_internal_flag_irrelevant_witness :
  let s := PPState {[ "_WIN32" := [PPNumber "1"] ]} [] in
  macros (header Core
            (PPState (<["JXL_CMS_INTERNAL_LIBRARY_BUILD" := []]> (macros s))
               (diagnostics s))) !! "JXL_EXPORT"
  = macros (header Core s) !! "JXL_EXPORT".
Proof.
  intros s.
  apply (foreign_internal_flag_irrelevant s Core Cms [] Export).
  discriminate.
Defined.

Lemma reinclusion_without_guard_witness :
  let s := PPState {[ "JXL_EXPORT" := [Ident "MY_API"];
                      "__GNUC__" := [PPNumber "13"] ]} [] in
  header Core (PPState (delete "JXL_EXPORT_H" (macros (header Core s)))
                 (diagnostics (header Core s)))
  = header Core s.
Proof.
  intros s. apply (reinclusion_without_guard s Core).
  vm_compute. reflexivity.
Defined.

Lemma include_all_any_order_witness :
  let s := initial_state (Config false true false true true false false) in
  same_outcome (include_all [Cms; Core; Threads] s)
    (include_all [Core; Cms; Threads] s).
Proof.
  intros s. apply (include_all_any_order [Cms; Core; Threads]
                     [Core; Cms; Threads] s).
  apply perm_swap.
Defined.

Lemma one_static_selector_any_order_witness :
  let s := PPState {[ "JXL_THREADS_STATIC_DEFINE" := [PPNumber "1"] ]} [] in
  let ms := [Threads; Core; Threads; Cms] in
  (defined s "JXL_STATIC_DEFINE" = true
   ∧ ∀ m, m ∈ ms →
          macros (include_all ms s) !! token_name m Export = Some []
          ∧ macros (include_all ms s) !! token_name m NoExport = Some [])
  ∨ (defined s "JXL_STATIC_DEFINE" = false
     ∧ ∀ m, m ∈ ms →
            macros (include_all ms s) !! token_name m NoExport
            = Some visibility_hidden).
Proof.
  intros s ms. apply (one_static_selector_any_order s ms).
  intros []; vm_compute; reflexivity.
Defined.

Lemma decision_table_on_any_table_witness :
  let s := PPState {[ "_WIN32" := [PPNumber "1"];
                      "__GNUC__" := [PPNumber "13"];
                      "JXL_INTERNAL_LIBRARY_BUILD" := [];
                      "JXL_EXPORT" := [Ident "MY_API"];
                      "MY_API" := [Ident "__attribute__"] ]} [] in
  token_expansion Core Export (header Core s) = Some declspec_dllexport
  ∧ token_expansion Core DeprecatedExport (header Core s)
    = Some (declspec_dllexport ++ attribute_deprecated)%list.
Proof.
  intros s. destruct (decision_table_on_any_table s Core)
    as (HE & _ & _ & HDE & _).
  - vm_compute. reflexivity.
  - apply Forall_forall. repeat constructor.
  - apply Forall_forall. repeat constructor.
  - split; [exact HE|exact HDE].
Defined.

(** X11. The composite tokens are bound to the names of the tokens they
    stand for, not to their replacement lists: when the export token is
    re-bound after the inclusion, the deprecated-and-exported token
    expands to the new replacement list followed by the deprecation
    attribute. *)
Theorem composite_follows_export_rebinding s m body :
  defined s (guard_name m) = false →
  macros s !! token_name m Deprecated = None →
  macros s !! token_name m DeprecatedExport = None →
  (∀ x, x ∈ attribute_identifiers → macros s !! x = None) →
  inert (macros (define (token_name m Export) body (header m s))) body →
  token_expansion m DeprecatedExport
    (define (token_name m Export) body (header m s))
  = Some (body ++ deprecated_choice s)%list.
Proof.
  intros Hguard HfreeD HfreeDE Hattr Hbody.
  set (s2 := define (token_name m Export) body (header m s)) in *.
  pose proof (header_token_binding s m Deprecated Hguard) as HD.
  pose proof (header_token_binding s m DeprecatedExport Hguard) as HDE.
  rewrite HfreeD in HD. rewrite HfreeDE in HDE. simpl in HD, HDE.
  destruct (inert_choices (macros s2) s m) as (_ & _ & HiD).
  { intros x Hx. unfold s2. rewrite lookup_define_ne.
    - rewrite untouched_header; [by apply Hattr|].
      by apply attribute_identifiers_free.
    - intros <-. apply (attribute_identifiers_free m) in Hx. apply Hx.
      unfold defined_names. apply list_elem_of_further, list_elem_of_here. }
  unfold token_expansion. apply (expansion_by_any_fuel 3).
  apply (expand_pair _ _ _ _ (token_name m Export) (token_name m Deprecated));
    try done; try (destruct m; discriminate).
  - unfold s2. rewrite lookup_define_ne by (destruct m; discriminate). done.
  - unfold s2. apply lookup_define_eq.
  - unfold s2. rewrite lookup_define_ne by (destruct m; discriminate). done.
Qed.

Lemma composite_follows_export_rebinding_witness :
  let s := PPState {[ "__GNUC__" := [PPNumber "13"] ]} [] in
  token_expansion Core DeprecatedExport
    (define "JXL_EXPORT" [Ident "extern"] (header Core s))
  = Some ([Ident "extern"] ++ attribute_deprecated)%list.
Proof.
  intros s.
  apply (composite_follows_export_rebinding s Core [Ident "extern"]).
  - vm_compute. reflexivity.
  - vm_compute. reflexivity.
  - vm_compute. reflexivity.
  - apply Forall_forall. repeat constructor.
  - repeat constructor.
Defined.

(** X12. The headers raise no diagnostic against one another: from any
    table in which no export and no hidden token is bound, including the
    headers in any order and any number of times adds no diagnostic. *)
Theorem headers_never_clash s ms :
  (∀ m k, k ∈ [Export; NoExport] → macros s !! token_name m k = None) →
  diagnostics (include_all ms s) = diagnostics s.
Proof.
  intros Hfresh.
  assert (∀ m, defined s (guard_name m) = true
               ∨ (macros s !! token_name m Export = None
                  ∧ macros s !! token_name m NoExport = None)) as Hinv.
  { intros m. right. split; apply Hfresh; repeat constructor. }
  clear Hfresh. revert s Hinv.
  induction ms as [|m0 ms IH]; intros s Hinv; [done|].
  rewrite include_all_cons, IH.
  - rewrite header_diagnostics. unfold new_diagnostics.
    destruct (defined s (guard_name m0)) eqn:Hguard; [apply app_nil_r|].
    destruct (Hinv m0) as [Hg|[-> ->]]; [congruence|]. apply app_nil_r.
  - intros m. destruct (decide (m = m0)) as [->|Hne].
    + left. apply header_binds_guard.
    + destruct (Hinv m) as [Hg|[HE HN]]; [left; by apply grows_header|].
      right. rewrite !untouched_header; [done|..];
        apply (names_apart m); try done; unfold defined_names;
        repeat constructor.
Qed.

Lemma headers_never_clash_witness :
  let s := PPState {[ "JXL_CMS_EXPORT_H" := [];
                      "JXL_DEPRECATED" := [Ident "MY_DEPRECATED"] ]}
             [MacroRedefined "MY_API"] in
  diagnostics (include_all [Core; Cms; Core; Threads] s)
  = [MacroRedefined "MY_API"].
Proof.
  intros s. apply (headers_never_clash s [Core; Cms; Core; Threads]).
  intros m k Hk. repeat (apply elem_of_cons in Hk as [->|Hk]);
    [destruct m; reflexivity|destruct m; reflexivity|].
  by apply elem_of_nil in Hk.
Defined.
